(** * tun-manager: a shallow embedding of the device-plugin server

    The embedding follows the Go packages of the repository:
    - [tundeviceplugin] : pkg/servers/tundeviceplugin (discovery, ListAndWatch,
      Allocate);
    - [plugin]          : pkg/plugin (retry/backoff, the registration handshake,
      the gRPC panic-recovery handler);
    - [tunmain]         : cmd/tun-device-plugin/main.go (shutdown, run, main,
      the listener);
    - [release]         : hack/cmd/release/main.go (the release script).

    Go values are modelled as the code has them: [uint] and [int64] as binary
    integers with their wrap-around written out, [error] as an optional error
    value ([None] is Go's [nil]), an unbuffered channel by what a goroutine
    observes on it, and calls into the environment (the file system, the gRPC
    stream, the kubelet, the two servers) by oracles that give the result of
    the k-th call.  Effects are kept as traces of events.

    The modules [*_defs] hold the vocabulary of the statements, and the
    modules [*_props] the lemmas and the theorems: one per claim (C1..C10)
    of the specification, and further properties of the code (X1..X13). *)

From Stdlib Require Import ZArith NArith List Ascii String Lia Bool.
From Stdlib Require Import DecimalString DecimalN DecimalPos FinFun.
From ExtLib Require Import Structures.Monad Structures.MonadState.
From ExtLib Require Import Data.Monads.StateMonad.
Import ListNotations.
Import MonadNotation.

Local Open Scope string_scope.
Local Open Scope list_scope.
Local Open Scope monad_scope.

(** ** Go values shared by the packages *)

Module Go.

(** Go's [error] values.  [ErrValue] is an error made by a library
    (a sentinel or a fresh one); [Errorf fmt args] is
    [fmt.Errorf(fmt, args...)], the verbs [%w], [%v], [%d] staying in the
    format string. *)
Inductive error : Type :=
| ErrValue (msg : string)
| Errorf (format : string) (args : list fmt_arg)
with fmt_arg : Type :=
| ArgInt (z : Z)
| ArgStr (s : string)
| ArgErr (e : option error).

(** What a call does: it returns, it stays blocked on a channel operation,
    or it panics. *)
Inductive outcome (A : Type) : Type :=
| Returned (a : A)
| Blocked
| Panicked (msg : string).
Arguments Returned {A} a.
Arguments Blocked {A}.
Arguments Panicked {A} msg.

(** What a sender observes on an unbuffered channel: a receiver took the
    value, nobody is receiving (the send stays blocked), or the channel is
    closed (the send panics). *)
Inductive send_obs : Type :=
| SendReceived
| SendNoReceiver
| SendOnClosed.

(** What a receiver observes at one receive: a value, or the closure of the
    channel.  A receiver that has seen every observation of its list and
    none was [RecvClosed] is blocked at the next receive. *)
Inductive recv_obs : Type :=
| RecvValue
| RecvClosed.

(** [uint] and [int64] on a 64-bit platform. *)
Definition uint_modulus : N := (2 ^ 64)%N.
Definition wrap_uint (n : N) : N := (n mod uint_modulus)%N.

Definition int64_modulus : Z := (2 ^ 64)%Z.
Definition int64_half : Z := (2 ^ 63)%Z.
Definition wrap_int64 (z : Z) : Z :=
  ((z + int64_half) mod int64_modulus - int64_half)%Z.

(** [fmt.Sprintf("%d", i)] for an unsigned [i]. *)
Definition format_uint (i : N) : string :=
  NilZero.string_of_uint (N.to_uint i).

End Go.
Import Go.

(** ** pkg/servers/tundeviceplugin *)

Module tundeviceplugin.

Definition tunPath : string := "/dev/net/tun".
Definition tunName : string := "tun".
Definition rwPerm : string := "rw".

(** The part of k8s.io/kubelet/pkg/apis/deviceplugin/v1beta1 the server
    uses. *)
Inductive Health : Type := Healthy | Unhealthy.

Record Device : Type := mkDevice {
  ID : string;
  DeviceHealth : Health
}.

Record DeviceSpec : Type := mkDeviceSpec {
  ContainerPath : string;
  HostPath : string;
  Permissions : string
}.

Record ContainerAllocateRequest : Type := mkContainerAllocateRequest {
  DevicesIDs : list string
}.

Record AllocateRequest : Type := mkAllocateRequest {
  ContainerRequests : list ContainerAllocateRequest
}.

Record ContainerAllocateResponse : Type := mkContainerAllocateResponse {
  Devices : list DeviceSpec
}.

Record AllocateResponse : Type := mkAllocateResponse {
  ContainerResponses : list ContainerAllocateResponse
}.

Record ListAndWatchResponse : Type := mkListAndWatchResponse {
  ResponseDevices : list Device
}.

(** [type Server struct]: the logger is replaced by the log entries the
    calls add to their trace; [update] is the channel, whose state lives
    with the goroutines that use it. *)
Record Server : Type := mkServer {
  namespace : string;
  devices : N;
  devs : list Device
}.

(** What the server does to the outside, in order. *)
Inductive event : Type :=
| EvLogDebug (msg : string)
| EvLogError (msg : string) (err : option error)
| EvSend (resp : ListAndWatchResponse) (result : option error)
| EvPublish.

(** The loop of [discover]:
    [for i := uint(0); i < s.devices; i++ { s.devs = append(s.devs, ...) }].
    [fuel] bounds the number of iterations; [None] is a loop that has not
    finished within it. *)
Fixpoint discover_loop (fuel : nat) (i : N) (s : Server) : option Server :=
  match fuel with
  | O => None
  | S fuel' =>
      if (i <? devices s)%N then
        discover_loop fuel' (wrap_uint (i + 1))
          (mkServer (namespace s) (devices s)
             (devs s ++ [mkDevice (tunName ++ format_uint i) Healthy]))
      else Some s
  end.

(** [discover]: [stat] is the error of [os.Stat(tunPath)]. *)
Definition discover (fuel : nat) (stat : option error) (s : Server)
  : option (Server * list event) :=
  match stat with
  | None =>
      match discover_loop fuel 0%N s with
      | Some s' => Some (s', [EvLogDebug "Discovered tun device"])
      | None => None
      end
  | Some _ => Some (s, [EvLogError "No tun device found" None])
  end.

(** [New(namespace, devices, log)]. *)
Definition New (fuel : nat) (stat : option error) (namespace : string)
    (devices : N) : option (Server * list event) :=
  discover fuel stat (mkServer namespace devices []).

(** The stream of a ListAndWatch call: [send_result k] is what the k-th
    call of [lws.Send] returns. *)
Record ListAndWatchServer : Type := mkStream {
  send_result : nat -> option error
}.

(** The state of a running ListAndWatch call: how many times it has called
    [Send], and its trace. *)
Record watch_state : Type := mkWatch {
  sends : nat;
  trace : list event
}.

(** [if err := lws.Send(&ListAndWatchResponse{Devices: s.devs}); err != nil
     { s.log.Error(...) }] *)
Definition send_roster (s : Server) (lws : ListAndWatchServer)
    (w : watch_state) : watch_state :=
  let resp := mkListAndWatchResponse (devs s) in
  let err := send_result lws (sends w) in
  mkWatch (S (sends w))
    (trace w ++ EvSend resp err ::
       match err with
       | Some e => [EvLogError "Failed to send ListAndWatch response" (Some e)]
       | None => []
       end).

(** [for range s.update { ... }] followed by [panic("unexpected error")]:
    [obs] is what the receives on [s.update] observe, in order. *)
Fixpoint watch_loop (s : Server) (lws : ListAndWatchServer)
    (obs : list recv_obs) (w : watch_state)
  : watch_state * outcome (option error) :=
  match obs with
  | [] => (w, Blocked)
  | RecvValue :: obs' => watch_loop s lws obs' (send_roster s lws w)
  | RecvClosed :: _ => (w, Panicked "unexpected error")
  end.

Definition ListAndWatch (s : Server) (lws : ListAndWatchServer)
    (obs : list recv_obs) : watch_state * outcome (option error) :=
  watch_loop s lws obs (send_roster s lws (mkWatch 0 [])).

(** [Allocate(ctx, req)]: [pub] is what the send [s.update <- struct{}{}]
    observes.  A send on a closed channel panics with the runtime's
    message. *)
Definition Allocate (s : Server) (pub : send_obs) (req : AllocateRequest)
  : list event * outcome (option AllocateResponse * option error) :=
  match pub with
  | SendNoReceiver => ([], Blocked)
  | SendOnClosed => ([], Panicked "send on closed channel")
  | SendReceived =>
      let devices := [mkDeviceSpec tunPath tunPath rwPerm] in
      ([EvPublish],
       Returned
         (Some (mkAllocateResponse [mkContainerAllocateResponse devices]),
          None))
  end.

(** *** The RPCs that carry no logic *)

Record DevicePluginOptions : Type := mkDevicePluginOptions {
  PreStartRequired : bool;
  GetPreferredAllocationAvailable : bool
}.

Record ContainerPreferredAllocationRequest : Type :=
  mkContainerPreferredAllocationRequest {
    AvailableDeviceIDs : list string;
    MustIncludeDeviceIDs : list string;
    AllocationSize : Z
  }.

Record PreferredAllocationRequest : Type := mkPreferredAllocationRequest {
  PreferredContainerRequests : list ContainerPreferredAllocationRequest
}.

Record ContainerPreferredAllocationResponse : Type :=
  mkContainerPreferredAllocationResponse {
    PreferredDeviceIDs : list string
  }.

Record PreferredAllocationResponse : Type := mkPreferredAllocationResponse {
  PreferredContainerResponses : list ContainerPreferredAllocationResponse
}.

Record PreStartContainerRequest : Type := mkPreStartContainerRequest {
  PreStartDevicesIDs : list string
}.

Inductive PreStartContainerResponse : Type := mkPreStartContainerResponse.

Definition GetDevicePluginOptions (s : Server)
  : option DevicePluginOptions * option error :=
  (Some (mkDevicePluginOptions false false), None).

Definition GetPreferredAllocation (s : Server)
    (req : PreferredAllocationRequest)
  : option PreferredAllocationResponse * option error :=
  (Some (mkPreferredAllocationResponse []), None).

Definition PreStartContainer (s : Server) (req : PreStartContainerRequest)
  : option PreStartContainerResponse * option error :=
  (Some mkPreStartContainerResponse, None).

End tundeviceplugin.

(** ** pkg/plugin *)

Module plugin.

(** [time.Duration] counts nanoseconds in an [int64]. *)
Definition Millisecond : Z := 1000000.
Definition Second : Z := 1000 * Millisecond.

(** Constants of k8s.io/kubelet/pkg/apis/deviceplugin/v1beta1. *)
Definition Version : string := "v1beta1".
Definition KubeletSocket : string :=
  "/var/lib/kubelet/device-plugins/kubelet.sock".

(** [grpc_health_v1.HealthCheckResponse_ServingStatus]. *)
Inductive ServingStatus : Type :=
| UNKNOWN
| SERVING
| NOT_SERVING
| SERVICE_UNKNOWN.

Definition ServingStatus_String (st : ServingStatus) : string :=
  match st with
  | UNKNOWN => "UNKNOWN"
  | SERVING => "SERVING"
  | NOT_SERVING => "NOT_SERVING"
  | SERVICE_UNKNOWN => "SERVICE_UNKNOWN"
  end.

Definition is_SERVING (st : ServingStatus) : bool :=
  match st with SERVING => true | _ => false end.

Record RegisterRequest : Type := mkRegisterRequest {
  ReqVersion : string;
  ResourceName : string;
  Endpoint : string
}.

(** A [*grpc.ClientConn], known by its target. *)
Record ClientConn : Type := mkClientConn { target : string }.

(** What the registration client and the recovery handler do to the
    outside, in order. *)
Inductive event : Type :=
| EvLogInfo (msg : string)
| EvLogBackoff (backoff : Z)
| EvLogPanic (p : string)
| EvNewClient (tgt : string) (err : option error)
| EvClose (tgt : string)
| EvHealthCheck (service : string) (st : ServingStatus) (err : option error)
| EvRegister (req : RegisterRequest) (err : option error)
| EvSleep (d : Z).

(** The environment: the result of the k-th call of [grpc.NewClient], of
    the health client's [Check] and of the registration client's
    [Register]. *)
Record env : Type := mkEnv {
  dial_result : nat -> option error;
  check_result : nat -> ServingStatus * option error;
  register_result : nat -> option error
}.

(** The state the calls thread: how many calls of each kind were made,
    the variable [conn] that the closure of [connectGRPCWithRetry] assigns,
    the counter [metrics.PanicCounter], and the trace. *)
Record world : Type := mkWorld {
  dials : nat;
  checks : nat;
  registers : nat;
  conn : option ClientConn;
  PanicCounter : nat;
  trace : list event
}.

Definition M : Type -> Type := state world.

Definition emit (ev : event) : M unit :=
  modify (fun w => mkWorld (dials w) (checks w) (registers w) (conn w)
                     (PanicCounter w) (trace w ++ [ev])) ;;
  ret tt.

Definition set_conn (c : option ClientConn) : M unit :=
  modify (fun w => mkWorld (dials w) (checks w) (registers w) c
                     (PanicCounter w) (trace w)) ;;
  ret tt.

Definition time_Sleep (d : Z) : M unit := emit (EvSleep d).

Section WithEnv.

Variable e : env.

(** [grpc.NewClient(socket, ...)]: the connection, or [nil] and an
    error. *)
Definition grpc_NewClient (socket : string)
  : M (option ClientConn * option error) :=
  w <- get ;;
  let err := dial_result e (dials w) in
  put (mkWorld (S (dials w)) (checks w) (registers w) (conn w)
         (PanicCounter w) (trace w ++ [EvNewClient socket err])) ;;
  ret (match err with
       | None => Some (mkClientConn socket)
       | Some _ => None
       end, err).

(** [health.Check(ctx, &HealthCheckRequest{Service: name})]. *)
Definition health_Check (name : string)
  : M (ServingStatus * option error) :=
  w <- get ;;
  let res := check_result e (checks w) in
  put (mkWorld (dials w) (S (checks w)) (registers w) (conn w)
         (PanicCounter w)
         (trace w ++ [EvHealthCheck name (fst res) (snd res)])) ;;
  ret res.

(** [NewRegistrationClient(conn).Register(ctx, req)]. *)
Definition kubelet_Register (req : RegisterRequest) : M (option error) :=
  w <- get ;;
  let err := register_result e (registers w) in
  put (mkWorld (dials w) (checks w) (S (registers w)) (conn w)
         (PanicCounter w) (trace w ++ [EvRegister req err])) ;;
  ret err.

(** [conn.Close()], deferred; its result is dropped. *)
Definition ClientConn_Close (c : option ClientConn) : M unit :=
  match c with
  | Some c => emit (EvClose (target c))
  | None => ret tt
  end.

End WithEnv.

(** *** retry *)

Definition baseDelay : Z := 100 * Millisecond.
Definition maxDelay : Z := 5 * Second.
Definition maxRetries : Z := 5.

(** [baseDelay * (1 << attempt)] in [int64], before the clamp: the constant 1
    takes the type of [baseDelay], so the shift and the product both wrap.
    [attempt] counts up from 0 and is never negative. *)
Definition computedDelay (attempt : Z) : Z :=
  wrap_int64 (baseDelay * wrap_int64 (Z.shiftl 1 attempt)).

(** [backoffDelay := baseDelay * (1 << attempt)
     if backoffDelay > maxDelay { backoffDelay = maxDelay }] *)
Definition backoffDelay (attempt : Z) : Z :=
  let backoffDelay := computedDelay attempt in
  if (backoffDelay >? maxDelay)%Z then maxDelay else backoffDelay.

(** The part of the loop body after a failed attempt: the debug log and
    the sleep. *)
Definition backoff (attempt : Z) : M unit :=
  emit (EvLogBackoff (backoffDelay attempt)) ;;
  time_Sleep (backoffDelay attempt).

(** [for attempt := 0; attempt < maxRetries; attempt++ { ... }] and the
    error after it.  [remaining] is [maxRetries - attempt], the number of
    iterations left; [err] is the variable [err] of [retry]. *)
Fixpoint retry_from (remaining : nat) (attempt : Z) (err : option error)
    (op : M (option error)) : M (option error) :=
  match remaining with
  | O =>
      ret (Some (Errorf
        "failed to create connection to local gRPC server after %d attempts: %w"
        [ArgInt maxRetries; ArgErr err]))
  | S remaining' =>
      err <- op ;;
      match err with
      | None => ret None
      | Some _ =>
          backoff attempt ;;
          retry_from remaining' (attempt + 1) err op
      end
  end.

Definition retry (op : M (option error)) : M (option error) :=
  retry_from (Z.to_nat maxRetries) 0 None op.

Section WithEnv.

Variable e : env.

(** The closure of [connectGRPCWithRetry]:
    [func() error { var err error; conn, err = grpc.NewClient(...); return err }]. *)
Definition dial_op (socket : string) : M (option error) :=
  r <- grpc_NewClient e socket ;;
  set_conn (fst r) ;;
  ret (snd r).

Definition connectGRPCWithRetry (socket : string)
  : M (option ClientConn * option error) :=
  set_conn None ;;
  err <- retry (dial_op socket) ;;
  w <- get ;;
  ret (conn w, err).

(** The closure of [waitForPluginReady]: one health check, failed by an
    error of [Check] or by a status other than SERVING. *)
Definition check_op (name : string) : M (option error) :=
  res <- health_Check e name ;;
  match snd res with
  | Some err => ret (Some err)
  | None =>
      if is_SERVING (fst res) then ret None
      else ret (Some (Errorf "invalid status: %v"
                        [ArgStr (ServingStatus_String (fst res))]))
  end.

Definition waitForPluginReady (name socket : string) : M (option error) :=
  emit (EvLogInfo "Waiting for socket ready") ;;
  r <- connectGRPCWithRetry socket ;;
  match snd r with
  | Some err =>
      ret (Some (Errorf
        "failed to create connection to local gRPC server: %w"
        [ArgErr (Some err)]))
  | None =>
      err <- retry (check_op name) ;;
      ClientConn_Close (fst r) ;;
      match err with
      | Some err =>
          ret (Some (Errorf "failed to check health of the service: %w"
                       [ArgErr (Some err)]))
      | None => ret None
      end
  end.

End WithEnv.

(** [filepath.Base] on a Unix path: the last element, trailing slashes
    dropped first; "." for the empty path and "/" for one of slashes
    only. *)
Fixpoint drop_slashes (l : list Ascii.ascii) : list Ascii.ascii :=
  match l with
  | c :: l' => if Ascii.eqb c "/"%char then drop_slashes l' else l
  | [] => []
  end.

Fixpoint until_slash (l : list Ascii.ascii) : list Ascii.ascii :=
  match l with
  | c :: l' => if Ascii.eqb c "/"%char then [] else c :: until_slash l'
  | [] => []
  end.

Definition filepath_Base (path : string) : string :=
  match path with
  | EmptyString => "."
  | _ =>
      match until_slash (drop_slashes (rev (list_ascii_of_string path))) with
      | [] => "/"
      | last => string_of_list_ascii (rev last)
      end
  end.

Section WithEnv.

Variable e : env.

Definition registerWithKubelet (name socket : string) : M (option error) :=
  emit (EvLogInfo "Registering device plugin") ;;
  r <- connectGRPCWithRetry e ("unix://" ++ KubeletSocket) ;;
  match snd r with
  | Some err =>
      ret (Some (Errorf "failed to connect to kubelet: %v"
                   [ArgErr (Some err)]))
  | None =>
      err <- kubelet_Register e
               (mkRegisterRequest Version name (filepath_Base socket)) ;;
      ClientConn_Close (fst r) ;;
      match err with
      | Some err =>
          ret (Some (Errorf
            "failed to register plugin with kubelet service: %v"
            [ArgErr (Some err)]))
      | None => ret None
      end
  end.

Definition RegisterDevicePlugin (name socket : string)
  : M (option error) :=
  err <- waitForPluginReady e name socket ;;
  match err with
  | Some err =>
      ret (Some (Errorf "plugin not ready: %w" [ArgErr (Some err)]))
  | None =>
      err <- registerWithKubelet name socket ;;
      match err with
      | Some err =>
          ret (Some (Errorf "registration failed: %w" [ArgErr (Some err)]))
      | None => ret None
      end
  end.

End WithEnv.

(** *** The panic-recovery handler and the interceptor it is given to *)

(** [metrics.PanicCounter.Inc()]. *)
Definition PanicCounter_Inc : M unit :=
  modify (fun w => mkWorld (dials w) (checks w) (registers w) (conn w)
                     (S (PanicCounter w)) (trace w)) ;;
  ret tt.

(** [grpcRecovery(log)]: the function it returns, applied to the value [p]
    of the panic. *)
Definition grpcRecovery (p : string) : M (option error) :=
  emit (EvLogPanic p) ;;
  PanicCounter_Inc ;;
  ret None.

(** What the handler of one RPC does: it returns, or it panics with a
    value. *)
Inductive handler_result (R : Type) : Type :=
| HandlerReturns (r : R)
| HandlerPanics (p : string).
Arguments HandlerReturns {R} r.
Arguments HandlerPanics {R} p.

(** [recovery.UnaryServerInterceptor(recovery.WithRecoveryHandler(h))] of
    go-grpc-middleware/v2: the interceptor calls the handler under a
    deferred [recover()]; when the handler panics with [p], the response
    stays [nil] and the error of the RPC is what [h(p)] returns. *)
Definition recovery_UnaryServerInterceptor {R : Type}
    (h : string -> M (option error))
    (handler : M (handler_result (option R * option error)))
  : M (option R * option error) :=
  r <- handler ;;
  match r with
  | HandlerReturns res => ret res
  | HandlerPanics p => err <- h p ;; ret (None, err)
  end.

(** [recovery.StreamServerInterceptor(recovery.WithRecoveryHandler(h))]:
    the same for a streaming RPC, whose handler returns an error only. *)
Definition recovery_StreamServerInterceptor
    (h : string -> M (option error))
    (handler : M (handler_result (option error)))
  : M (option error) :=
  r <- handler ;;
  match r with
  | HandlerReturns err => ret err
  | HandlerPanics p => h p
  end.

(** [DevicePluginServer]: the server runs a unary handler, and a stream
    handler, under the chain metrics, logging, recovery.  The metrics and
    logging interceptors pass the response and the error of the inner
    call on as they are. *)
Definition DevicePluginServer_unary {R : Type}
    (handler : M (handler_result (option R * option error)))
  : M (option R * option error) :=
  recovery_UnaryServerInterceptor grpcRecovery handler.

Definition DevicePluginServer_stream
    (handler : M (handler_result (option error))) : M (option error) :=
  recovery_StreamServerInterceptor grpcRecovery handler.

(** The status the caller of an RPC sees: gRPC reports the error the
    handler chain returns, and OK when it returns [nil]. *)
Inductive rpc_status : Type :=
| StatusOK
| StatusError (err : error).

Definition status_of (err : option error) : rpc_status :=
  match err with
  | None => StatusOK
  | Some err => StatusError err
  end.

End plugin.

(** ** cmd/tun-device-plugin/main.go *)

Module tunmain.

Definition gracePeriod : Z := 5 * plugin.Second.

(** [http.ErrServerClosed]. *)
Definition ErrServerClosed : error := ErrValue "http: Server closed".

Inductive event : Type :=
| EvLogInfo (msg : string)
| EvLogDebug (msg : string)
| EvLogError (msg : string) (err : error)
| EvGracefulStop
| EvStop
| EvShutdown
| EvClose.

(** The case of [select { case <-dctx.Done(): ... case ... <-c: ... }] that
    fires: the grace deadline (or the cancellation of the group's context)
    comes first, or the graceful stop finishes first. *)
Inductive select_case : Type :=
| DeadlineFirst
| StopFirst.

(** What the shutdown sequence meets: whether [ctx] is ever cancelled, the
    case that fires in each task, what [httpServer.Shutdown(dctx)] and
    [httpServer.Close()] return, and which of the two tasks returns
    first. *)
Record shutdown_env : Type := mkShutdownEnv {
  ctx_done : bool;
  grpc_select : select_case;
  http_select : select_case;
  http_Shutdown : option error;
  http_Close : option error;
  http_returns_first : bool
}.

(** [errgroup.Group.Wait]: the first non-nil error of the tasks, taken in
    the order in which they return. *)
Fixpoint errgroup_Wait (results : list (option error)) : option error :=
  match results with
  | [] => None
  | Some err :: _ => Some err
  | None :: results' => errgroup_Wait results'
  end.

(** The task of [shutdown] for the gRPC server: [GracefulStop] runs in a
    goroutine of its own and signals [c]. *)
Definition shutdown_grpc (sd : shutdown_env) : list event * option error :=
  match grpc_select sd with
  | DeadlineFirst =>
      ([EvLogDebug "Shutting down gRPC server"; EvGracefulStop;
        EvLogInfo "Forcing gRPC shutdown"; EvStop], None)
  | StopFirst =>
      ([EvLogDebug "Shutting down gRPC server"; EvGracefulStop], None)
  end.

(** The task of [shutdown] for the HTTP server. *)
Definition shutdown_http (sd : shutdown_env) : list event * option error :=
  match http_select sd with
  | DeadlineFirst =>
      ([EvLogDebug "Shutting down HTTP server"; EvShutdown;
        EvLogInfo "Forcing HTTP shutdown"; EvClose], http_Close sd)
  | StopFirst =>
      ([EvLogDebug "Shutting down HTTP server"; EvShutdown],
       http_Shutdown sd)
  end.

(** [shutdown(ctx, log, grpcServer, httpServer)]; [grpcServer] and
    [httpServer] say whether the pointer is non-nil. *)
Definition shutdown (sd : shutdown_env) (grpcServer httpServer : bool)
  : outcome (option error) :=
  if ctx_done sd then
    let g := if grpcServer then [snd (shutdown_grpc sd)] else [] in
    let h := if httpServer then [snd (shutdown_http sd)] else [] in
    Returned (errgroup_Wait
                (if http_returns_first sd then h ++ g else g ++ h))
  else Blocked.

(** The four tasks of [run]. *)
Inductive task : Type :=
| ShutdownTask
| RegisterTask
| HttpTask
| GrpcTask.

(** What [run] meets besides the shutdown sequence: the result of
    [dps.RegisterDevicePlugin], the error of each call of [listener], the
    results of the two [Serve] calls, and the order in which the tasks
    return.  [httpServer.Serve] always returns a non-nil error (net/http:
    after [Shutdown] or [Close] it is [ErrServerClosed]); [grpcServer.Serve]
    returns [nil] once [Stop] or [GracefulStop] was called. *)
Record run_env : Type := mkRunEnv {
  sd : shutdown_env;
  register : option error;
  http_listener : option error;
  http_Serve : error;
  grpc_listener : option error;
  grpc_Serve : option error;
  return_order : list task
}.

Definition run_task (r : run_env) (t : task) : outcome (option error) :=
  match t with
  | ShutdownTask => shutdown (sd r) true true
  | RegisterTask => Returned (register r)
  | HttpTask =>
      match http_listener r with
      | Some err =>
          Returned (Some (Errorf "failed to create http listener: %w"
                            [ArgErr (Some err)]))
      | None => Returned (Some (http_Serve r))
      end
  | GrpcTask =>
      match grpc_listener r with
      | Some err =>
          Returned (Some (Errorf "failed to create grpc listener: %w"
                            [ArgErr (Some err)]))
      | None => Returned (grpc_Serve r)
      end
  end.

(** The results of the tasks in the order given, when each of them
    returns. *)
Fixpoint join (r : run_env) (ts : list task)
  : outcome (list (option error)) :=
  match ts with
  | [] => Returned []
  | t :: ts' =>
      match run_task r t, join r ts' with
      | Returned res, Returned rest => Returned (res :: rest)
      | Panicked msg, _ => Panicked msg
      | _, Panicked msg => Panicked msg
      | _, _ => Blocked
      end
  end.

(** [run(ctx, log)]: [eg.Wait()] over the four tasks. *)
Definition run (r : run_env) : outcome (option error) :=
  match join r (return_order r) with
  | Returned results => Returned (errgroup_Wait results)
  | Blocked => Blocked
  | Panicked msg => Panicked msg
  end.

(** [main]: the exit code of the process. *)
Definition main (r : run_env) : outcome Z :=
  match run r with
  | Returned (Some _) => Returned 1%Z
  | Returned None => Returned 0%Z
  | Blocked => Blocked
  | Panicked msg => Panicked msg
  end.

(** *** listener *)






End tunmain.

(** ** hack/cmd/release/main.go *)

Module release.

Definition defaultImageName : string := "plugin".
Definition defaultImageRef : string := "ghcr.io/anza-labs/tun-manager".

(** The value of [createKustomization]: a map with the four keys
    namespace, namePrefix, resources and images, the last a list of maps
    with the keys name, newName and newTag. *)
Record image : Type := mkImage {
  image_name : string;
  newName : string;
  newTag : string
}.

Record kustomization : Type := mkKustomization {
  k_namespace : string;
  namePrefix : string;
  resources : list string;
  images : list image
}.

(** What the script does to the outside, in order. *)
Inductive event : Type :=
| EvRun (name : string) (args : list string) (err : option error)
| EvBranchList (branchName : string) (output : string)
| EvWriteFile (path : string) (content : string) (err : option error)
| EvFatal (msg : string) (err : error).

(** The environment: the result of the k-th command that [runCommand]
    runs, the output of [git branch --list] for a branch name, the major and
    minor numbers (or the error) of [semver.NewVersion], the result of
    [yaml.Marshal] and of [os.WriteFile]. *)
Record env : Type := mkEnv {
  run_result : nat -> option error;
  branch_list : string -> string;
  semver_NewVersion : string -> (N * N) + error;
  yaml_Marshal : kustomization -> string + error;
  os_WriteFile : option error
}.

Record world : Type := mkWorld {
  runs : nat;
  trace : list event
}.

Definition M : Type -> Type := state world.

Definition emit (ev : event) : M unit :=
  modify (fun w => mkWorld (runs w) (trace w ++ [ev])) ;;
  ret tt.

(** [strings.Contains(s, substr)]. *)
Fixpoint strings_Contains (s substr : string) : bool :=
  if String.prefix substr s then true
  else match s with
       | EmptyString => false
       | String _ s' => strings_Contains s' substr
       end.

(** [strings.TrimPrefix(s, "v")]. *)
Definition TrimPrefix_v (s : string) : string :=
  match s with
  | String "v" rest => rest
  | _ => s
  end.

Section WithEnv.

Variable e : env.

Definition runCommand (name : string) (args : list string)
  : M (option error) :=
  w <- get ;;
  let err := run_result e (runs w) in
  put (mkWorld (S (runs w)) (trace w ++ [EvRun name args err])) ;;
  ret err.

Definition gitCmd (args : list string) : M (option error) :=
  runCommand "git" args.

(** [branchExists]: the error of the command is dropped. *)
Definition branchExists (branchName : string) : M bool :=
  let output := branch_list e branchName in
  emit (EvBranchList branchName output) ;;
  ret (strings_Contains output branchName).

Definition switchToBranch (branchName : string) : M (option error) :=
  gitCmd ["checkout"; branchName].

Definition createBranch (branchName : string) : M (option error) :=
  gitCmd ["checkout"; "-b"; branchName].

Definition branchPrep (version fullVersion : string) : M (option error) :=
  let branch := ("release-" ++ version)%string in
  exists_ <- branchExists branch ;;
  err <- (if exists_ : bool then switchToBranch branch
          else createBranch branch) ;;
  match err with
  | Some err => ret (Some err)
  | None =>
      gitCmd ["merge"; "origin/main"; "-m";
              ("chore(" ++ version ++ "): merge changes for "
               ++ fullVersion)%string;
              "--signoff"]
  end.

Definition parseVersion (version : string) : string * option error :=
  match semver_NewVersion e (TrimPrefix_v version) with
  | inr err =>
      ("", Some (Errorf "failed to parse version: %w" [ArgErr (Some err)]))
  | inl (major, minor) =>
      ((format_uint major ++ "." ++ format_uint minor)%string, None)
  end.

Definition createKustomization (resources : list string)
    (imageName newImageName newTag : string) : kustomization :=
  mkKustomization "anza-labs-kubelet-plugins" "tun-device-" resources
    [mkImage imageName newImageName newTag].

Definition writeKustomization (k : kustomization) (filepath : string)
  : M (option error) :=
  match yaml_Marshal e k with
  | inr err =>
      ret (Some (Errorf "failed to marshal kustomization: %w"
                   [ArgErr (Some err)]))
  | inl content =>
      emit (EvWriteFile filepath content (os_WriteFile e)) ;;
      ret (os_WriteFile e)
  end.

Definition release (version fullVersion : string) : M (option error) :=
  err <- gitCmd ["add"; "."] ;;
  match err with
  | Some err => ret (Some err)
  | None =>
  err <- gitCmd ["commit"; "-sm";
                 ("chore(" ++ version ++ "): create release commit "
                  ++ fullVersion)%string] ;;
  match err with
  | Some err => ret (Some err)
  | None =>
  err <- gitCmd ["push"; "origin"; ("release-" ++ version)%string] ;;
  match err with
  | Some err => ret (Some err)
  | None =>
  err <- gitCmd ["tag"; fullVersion] ;;
  match err with
  | Some err => ret (Some err)
  | None => gitCmd ["push"; "--tags"]
  end end end end.

(** [log.Fatalf(format, err)]: the message is logged and the process exits
    with code 1. *)
Definition Fatalf (msg : string) (err : error) : M Z :=
  emit (EvFatal msg err) ;;
  ret 1%Z.

(** [main], with the values of the three flags; the result is the exit
    code. *)
Definition main (versionFlag imageFlag newImageFlag : string) : M Z :=
  let resources := ["./config/plugin"; "./config/rbac"] in
  match parseVersion versionFlag with
  | (_, Some err) => Fatalf "Failed to parse version: %v" err
  | (version, None) =>
      err <- branchPrep version versionFlag ;;
      match err with
      | Some err => Fatalf "Failed to prepare branch: %v" err
      | None =>
          let kustomization :=
            createKustomization resources imageFlag newImageFlag
              versionFlag in
          err <- writeKustomization kustomization "./kustomization.yaml" ;;
          match err with
          | Some err => Fatalf "Failed to write kustomization: %v" err
          | None =>
              err <- release version versionFlag ;;
              match err with
              | Some err => Fatalf "Failed to release: %v" err
              | None => ret 0%Z
              end
          end
      end
  end.

End WithEnv.

End release.

(** * The vocabulary of the statements *)

Module tundeviceplugin_defs.
Import tundeviceplugin.

(** The roster the specification describes for a present host path:
    devices "tun<i>" for [i] from [first] on, [count] of them, in order,
    all healthy. *)
Definition spec_roster_from (first count : nat) : list Device :=
  map (fun i => mkDevice ("tun" ++ format_uint (N.of_nat i)) Healthy)
      (seq first count).

Definition spec_roster (n : N) : list Device :=
  spec_roster_from 0 (N.to_nat n).

(** The messages a trace sends on the stream, in order. *)
Fixpoint sent_messages (tr : list event) : list ListAndWatchResponse :=
  match tr with
  | [] => []
  | EvSend resp _ :: tr' => resp :: sent_messages tr'
  | _ :: tr' => sent_messages tr'
  end.

(** The number of signals a watcher receives: the values observed before
    the channel is seen closed. *)
Fixpoint received (obs : list recv_obs) : nat :=
  match obs with
  | RecvValue :: obs' => S (received obs')
  | _ => 0
  end.

(** The events of the k-th call of [Send]: the call, and the log entry
    when it fails. *)
Definition send_events (s : Server) (lws : ListAndWatchServer) (k : nat)
  : list event :=
  EvSend (mkListAndWatchResponse (devs s)) (send_result lws k) ::
  match send_result lws k with
  | Some e => [EvLogError "Failed to send ListAndWatch response" (Some e)]
  | None => []
  end.

(** The claim of one container response per requested container group. *)
Definition one_response_per_group (req : AllocateRequest)
    (resp : AllocateResponse) : Prop :=
  List.length (ContainerResponses resp) = List.length (ContainerRequests req).

Definition fixed_descriptor : DeviceSpec :=
  mkDeviceSpec "/dev/net/tun" "/dev/net/tun" "rw".

Definition snapshot (s : Server) : ListAndWatchResponse :=
  mkListAndWatchResponse (devs s).

Definition closed (obs : list recv_obs) : bool :=
  existsb (fun o => match o with RecvClosed => true | RecvValue => false end)
          obs.

(** *** A server with its watchers *)

(** A watcher is a running call of [ListAndWatch] that is blocked at the
    receive on the update channel: its stream and its state. *)
Record watcher : Type := mkWatcher {
  stream : ListAndWatchServer;
  state : watch_state
}.

(** A stream is opened: the call sends the snapshot and waits. *)
Definition attach (s : Server) (lws : ListAndWatchServer) : watcher :=
  mkWatcher lws (fst (ListAndWatch s lws [])).

(** A watcher receives one value from the channel and runs the loop body
    once. *)
Definition wake (s : Server) (w : watcher) : watcher :=
  mkWatcher (stream w)
    (fst (watch_loop s (stream w) [RecvValue] (state w))).

Fixpoint wake_nth (s : Server) (ws : list watcher) (i : nat)
  : list watcher :=
  match ws, i with
  | [], _ => []
  | w :: ws', O => wake s w :: ws'
  | w :: ws', S i' => w :: wake_nth s ws' i'
  end.

(** One call of [Allocate] while the watchers [ws] wait on the channel.  The
    channel is unbuffered: with no watcher the send finds no receiver; else
    the runtime hands the value to one watcher, the one numbered
    [pick mod length ws], and only that one wakes. *)
Definition allocate_with (s : Server) (ws : list watcher) (pick : nat)
    (req : AllocateRequest)
  : list watcher * outcome (option AllocateResponse * option error) :=
  match ws with
  | [] => (ws, snd (Allocate s SendNoReceiver req))
  | _ :: _ =>
      (wake_nth s ws (pick mod List.length ws),
       snd (Allocate s SendReceived req))
  end.

(** A sequence of calls of [Allocate], each with the watcher the runtime
    picks. *)
Fixpoint allocate_all (s : Server) (ws : list watcher)
    (calls : list (nat * AllocateRequest))
  : list watcher *
    list (outcome (option AllocateResponse * option error)) :=
  match calls with
  | [] => (ws, [])
  | (pick, req) :: calls' =>
      let r := allocate_with s ws pick req in
      let rest := allocate_all s (fst r) calls' in
      (fst rest, snd r :: snd rest)
  end.

(** The number of calls of [Send] the watchers have made. *)
Definition total_sends (ws : list watcher) : nat :=
  list_sum (map (fun w => sends (state w)) ws).

(** The messages the watchers have sent. *)
Definition all_messages (ws : list watcher) : list ListAndWatchResponse :=
  flat_map (fun w => sent_messages (trace (state w))) ws.

(** Every message a watcher has sent is the snapshot, and it has sent as
    many as it has called [Send]. *)
Definition watcher_ok (s : Server) (w : watcher) : Prop :=
  sent_messages (trace (state w)) = repeat (snapshot s) (sends (state w)).

(** What a call of [Allocate] that returns gives. *)
Definition granted : outcome (option AllocateResponse * option error) :=
  Returned
    (Some (mkAllocateResponse
             [mkContainerAllocateResponse [fixed_descriptor]]), None).

End tundeviceplugin_defs.

Module plugin_defs.
Import plugin.
Local Open Scope nat_scope.

(** The world after the debug log and the sleep that follow a failed
    attempt. *)
Definition after_backoff (attempt : Z) (w : world) : world :=
  mkWorld (dials w) (checks w) (registers w) (conn w) (PanicCounter w)
    (trace w ++ [EvLogBackoff (backoffDelay attempt);
                 EvSleep (backoffDelay attempt)]).

(** The world in which the k-th attempt of a loop runs when the attempts
    before it failed; the loop starts in [w] with the counter at [a]. *)
Fixpoint attempt_world (op : M (option error)) (a : Z) (w : world)
    (k : nat) : world :=
  match k with
  | O => w
  | S k' =>
      attempt_world op (a + 1) (after_backoff a (snd (runState op w))) k'
  end.

(** What the operation returns at that attempt. *)
Definition attempt_result (op : M (option error)) (a : Z) (w : world)
    (k : nat) : option error :=
  fst (runState op (attempt_world op a w k)).

Definition retry_error (err : option error) : error :=
  Errorf
    "failed to create connection to local gRPC server after %d attempts: %w"
    [ArgInt 5; ArgErr err].

(** The first attempt among the [n] first that succeeds, if any. *)
Fixpoint first_success (op : M (option error)) (a : Z) (w : world)
    (n : nat) : option nat :=
  match n with
  | O => None
  | S n' =>
      match fst (runState op w) with
      | None => Some 0
      | Some _ =>
          option_map S
            (first_success op (a + 1)
               (after_backoff a (snd (runState op w))) n')
      end
  end.

(** What the closure of [waitForPluginReady] makes of the result of
    [Check]. *)
Definition check_error (res : ServingStatus * option error)
  : option error :=
  match snd res with
  | Some err => Some err
  | None =>
      if is_SERVING (fst res) then None
      else Some (Errorf "invalid status: %v"
                   [ArgStr (ServingStatus_String (fst res))])
  end.

Definition dial_conn (socket : string) (err : option error)
  : option ClientConn :=
  match err with
  | None => Some (mkClientConn socket)
  | Some _ => None
  end.

(** The number of failures that open the sequence [res b], [res (b + 1)],
    ..., counted up to [n]. *)
Fixpoint leading_failures (res : nat -> option error) (b n : nat) : nat :=
  match n with
  | O => 0
  | S n' =>
      match res b with
      | Some _ => S (leading_failures res (S b) n')
      | None => 0
      end
  end.

(** The events of [m] failed attempts in a row: the attempt, then the
    debug log and the sleep of its backoff. *)
Fixpoint failed_attempts (ev : nat -> event) (b : nat) (a : Z) (m : nat)
  : list event :=
  match m with
  | O => []
  | S m' =>
      ev b :: EvLogBackoff (backoffDelay a) :: EvSleep (backoffDelay a) ::
      failed_attempts ev (S b) (a + 1) m'
  end.

(** The events of a whole loop of [n] attempts at most that meets [m]
    failures first. *)
Definition loop_events (ev : nat -> event) (b : nat) (a : Z) (m n : nat)
  : list event :=
  failed_attempts ev b a m ++ (if m =? n then [] else [ev (b + m)]).

(** The number of calls such a loop makes. *)
Definition calls_made (m n : nat) : nat := if m =? n then n else S m.

(** The variable [err] when the loop ends. *)
Definition last_result (res : nat -> option error) (b n : nat)
    (err0 : option error) : option error :=
  match n with
  | O => err0
  | S n' => res (b + n')
  end.

Definition loop_result (res : nat -> option error) (b m n : nat)
    (err0 : option error) : option error :=
  if m =? n then Some (retry_error (last_result res b n err0)) else None.

Definition dial_event (e : env) (socket : string) (i : nat) : event :=
  EvNewClient socket (dial_result e i).

Definition check_event (e : env) (name : string) (i : nat) : event :=
  EvHealthCheck name (fst (check_result e i)) (snd (check_result e i)).

Definition check_res (e : env) (i : nat) : option error :=
  check_error (check_result e i).

(** The events, the result and the final world of [waitForPluginReady]
    run in [w], from the number [m1] of failed dials and [m2] of failed
    health checks that open the two loops. *)
Definition ready_events (e : env) (name socket : string) (w : world)
  : list event :=
  let m1 := leading_failures (dial_result e) (dials w) 5 in
  let m2 := leading_failures (check_res e) (checks w) 5 in
  EvLogInfo "Waiting for socket ready" ::
  loop_events (dial_event e socket) (dials w) 0 m1 5 ++
  (if m1 =? 5 then []
   else loop_events (check_event e name) (checks w) 0 m2 5 ++
        [EvClose socket]).

Definition ready_result (e : env) (w : world) : option error :=
  let m1 := leading_failures (dial_result e) (dials w) 5 in
  let m2 := leading_failures (check_res e) (checks w) 5 in
  if m1 =? 5 then
    Some (Errorf "failed to create connection to local gRPC server: %w"
            [ArgErr (Some (retry_error (dial_result e (dials w + 4))))])
  else if m2 =? 5 then
    Some (Errorf "failed to check health of the service: %w"
            [ArgErr (Some (retry_error (check_res e (checks w + 4))))])
  else None.

Definition ready_world (e : env) (name socket : string) (w : world)
  : world :=
  let m1 := leading_failures (dial_result e) (dials w) 5 in
  let m2 := leading_failures (check_res e) (checks w) 5 in
  mkWorld (dials w + calls_made m1 5)
    (if m1 =? 5 then checks w else checks w + calls_made m2 5)
    (registers w)
    (if m1 =? 5 then None else Some (mkClientConn socket))
    (PanicCounter w)
    (trace w ++ ready_events e name socket w).

Definition kubelet_target : string := "unix://" ++ KubeletSocket.

Definition register_request (name socket : string) : RegisterRequest :=
  mkRegisterRequest Version name (filepath_Base socket).

(** The same for [registerWithKubelet] run in [w]. *)
Definition kubelet_events (e : env) (name socket : string) (w : world)
  : list event :=
  let m3 := leading_failures (dial_result e) (dials w) 5 in
  EvLogInfo "Registering device plugin" ::
  loop_events (dial_event e kubelet_target) (dials w) 0 m3 5 ++
  (if m3 =? 5 then []
   else [EvRegister (register_request name socket)
           (register_result e (registers w));
         EvClose kubelet_target]).

Definition kubelet_result (e : env) (w : world) : option error :=
  let m3 := leading_failures (dial_result e) (dials w) 5 in
  if m3 =? 5 then
    Some (Errorf "failed to connect to kubelet: %v"
            [ArgErr (Some (retry_error (dial_result e (dials w + 4))))])
  else
    match register_result e (registers w) with
    | Some err =>
        Some (Errorf "failed to register plugin with kubelet service: %v"
                [ArgErr (Some err)])
    | None => None
    end.

Definition kubelet_world (e : env) (name socket : string) (w : world)
  : world :=
  let m3 := leading_failures (dial_result e) (dials w) 5 in
  mkWorld (dials w + calls_made m3 5) (checks w)
    (if m3 =? 5 then registers w else S (registers w))
    (if m3 =? 5 then None else Some (mkClientConn kubelet_target))
    (PanicCounter w)
    (trace w ++ kubelet_events e name socket w).

(** The same for [RegisterDevicePlugin]. *)
Definition registration_result (e : env) (name socket : string)
    (w : world) : option error :=
  match ready_result e w with
  | Some err => Some (Errorf "plugin not ready: %w" [ArgErr (Some err)])
  | None =>
      match kubelet_result e (ready_world e name socket w) with
      | Some err =>
          Some (Errorf "registration failed: %w" [ArgErr (Some err)])
      | None => None
      end
  end.

Definition registration_world (e : env) (name socket : string)
    (w : world) : world :=
  match ready_result e w with
  | Some _ => ready_world e name socket w
  | None => kubelet_world e name socket (ready_world e name socket w)
  end.

(** The number of calls of [Register] in a trace. *)
Fixpoint register_calls (tr : list event) : nat :=
  match tr with
  | [] => 0
  | EvRegister _ _ :: tr' => S (register_calls tr')
  | _ :: tr' => register_calls tr'
  end.

Definition ms (n : Z) : Z := (n * Millisecond)%Z.

(** The sleep that comes just before each attempt of a trace to open a
    connection, [None] for an attempt that no sleep precedes; [pending] is
    the last sleep seen since the attempt before. *)
Fixpoint delays_before_attempts (pending : option Z) (tr : list event)
  : list (option Z) :=
  match tr with
  | [] => []
  | EvSleep d :: tr' => delays_before_attempts (Some d) tr'
  | EvNewClient _ _ :: tr' => pending :: delays_before_attempts None tr'
  | _ :: tr' => delays_before_attempts pending tr'
  end.

(** An environment in which every call fails, and the world of a process
    that has made no call yet. *)
Definition refusing : env :=
  mkEnv (fun _ => Some (ErrValue "connection refused"))
        (fun _ => (UNKNOWN, Some (ErrValue "unavailable")))
        (fun _ => Some (ErrValue "unavailable")).

Definition fresh : world := mkWorld 0 0 0 None 0 [].

Definition tun_socket : string :=
  "unix:///var/lib/kubelet/device-plugins/tun.sock".

Definition tun_name : string := "devices.anza-labs.dev/tun".

(** An environment in which only the kubelet's [Register] fails. *)
Definition kubelet_rejects : env :=
  mkEnv (fun _ => None)
        (fun _ => (SERVING, None))
        (fun _ => Some (ErrValue "rpc error: code = Unavailable")).

(** The claim that registration fails only after one of its retry loops has
    met [maxRetries] failures in a row. *)
Definition fails_only_after_exhaustion (e : env) (name socket : string)
    (w : world) : Prop :=
  fst (runState (RegisterDevicePlugin e name socket) w) <> None ->
  let m1 := leading_failures (dial_result e) (dials w) 5 in
  let m2 := leading_failures (check_res e) (checks w) 5 in
  let m3 := leading_failures (dial_result e) (dials w + S m1) 5 in
  m1 = 5 \/ m2 = 5 \/ m3 = 5.

(** The number of sleeps in a trace: the number of failed attempts of its
    retry loops. *)
Fixpoint sleeps (tr : list event) : nat :=
  match tr with
  | [] => 0
  | EvSleep _ :: tr' => S (sleeps tr')
  | _ :: tr' => sleeps tr'
  end.

(** *** Reading a trace *)

(** The durations of the sleeps of a trace, in order, and their sum. *)
Fixpoint sleep_durations (tr : list event) : list Z :=
  match tr with
  | [] => []
  | EvSleep d :: tr' => d :: sleep_durations tr'
  | _ :: tr' => sleep_durations tr'
  end.

Definition total_sleep (tr : list event) : Z :=
  fold_right Z.add 0%Z (sleep_durations tr).

(** The targets of the connections a trace opens (the calls of
    [grpc.NewClient] that succeed) and of those it closes, in order. *)
Fixpoint opened (tr : list event) : list string :=
  match tr with
  | [] => []
  | EvNewClient tgt None :: tr' => tgt :: opened tr'
  | _ :: tr' => opened tr'
  end.

Fixpoint closed_conns (tr : list event) : list string :=
  match tr with
  | [] => []
  | EvClose tgt :: tr' => tgt :: closed_conns tr'
  | _ :: tr' => closed_conns tr'
  end.


(** The events [RegisterDevicePlugin] adds to the trace when run in [w]. *)
Definition registration_events (e : env) (name socket : string) (w : world)
  : list event :=
  ready_events e name socket w ++
  match ready_result e w with
  | Some _ => []
  | None => kubelet_events e name socket (ready_world e name socket w)
  end.

(** *** A sequence of RPCs under the recovery interceptor *)




(** The delays of [m] failed attempts in a row, the first numbered [a], and
    their sum. *)
Fixpoint delays (a : Z) (m : nat) : list Z :=
  match m with
  | O => []
  | S m' => backoffDelay a :: delays (a + 1) m'
  end.

Definition delay_sum (m : nat) : Z := fold_right Z.add 0%Z (delays 0 m).


End plugin_defs.

Module tunmain_defs.
Import tunmain.

(** Both servers stop gracefully within the grace period and every call
    succeeds; the tasks return in the order register, HTTP, gRPC,
    shutdown. *)
Definition graceful : shutdown_env :=
  mkShutdownEnv true StopFirst StopFirst None None false.

Definition clean_shutdown : run_env :=
  mkRunEnv graceful None None ErrServerClosed None None
    [RegisterTask; HttpTask; GrpcTask; ShutdownTask].

(** The grace deadline expires in both tasks and [Close] succeeds. *)
Definition forced : shutdown_env :=
  mkShutdownEnv true DeadlineFirst DeadlineFirst
    (Some (ErrValue "context deadline exceeded")) None false.

Definition forced_shutdown : run_env :=
  mkRunEnv forced None None ErrServerClosed None None
    [RegisterTask; HttpTask; GrpcTask; ShutdownTask].




End tunmain_defs.

Module release_defs.
Import release.
Local Open Scope nat_scope.

(** The git commands of [branchPrep], from whether the branch exists, and
    of [release]. *)
Definition prep_commands (branch_exists : bool) (version fullVersion : string)
  : list (list string) :=
  [ if branch_exists then ["checkout"; ("release-" ++ version)%string]
    else ["checkout"; "-b"; ("release-" ++ version)%string];
    ["merge"; "origin/main"; "-m";
     ("chore(" ++ version ++ "): merge changes for " ++ fullVersion)%string;
     "--signoff"] ].

Definition release_commands (version fullVersion : string)
  : list (list string) :=
  [ ["add"; "."];
    ["commit"; "-sm";
     ("chore(" ++ version ++ "): create release commit "
      ++ fullVersion)%string];
    ["push"; "origin"; ("release-" ++ version)%string];
    ["tag"; fullVersion];
    ["push"; "--tags"] ].

(** The git commands [cmds] run one after the other until one fails, the
    first as the command numbered [b]: the events and the result. *)
Fixpoint run_seq (f : nat -> option error) (b : nat)
    (cmds : list (list string)) : list event * option error :=
  match cmds with
  | [] => ([], None)
  | c :: cs =>
      match f b with
      | Some err => ([EvRun "git" c (Some err)], Some err)
      | None =>
          (EvRun "git" c None :: fst (run_seq f (S b) cs),
           snd (run_seq f (S b) cs))
      end
  end.

(** The arguments of the commands a trace runs, and those that failed. *)
Fixpoint commands (tr : list event) : list (list string) :=
  match tr with
  | [] => []
  | EvRun _ args _ :: tr' => args :: commands tr'
  | _ :: tr' => commands tr'
  end.

Fixpoint failures (tr : list event) : list (list string) :=
  match tr with
  | [] => []
  | EvRun _ args (Some _) :: tr' => args :: failures tr'
  | _ :: tr' => failures tr'
  end.

(** The files a trace writes, with their content. *)
Fixpoint writes (tr : list event) : list (string * string) :=
  match tr with
  | [] => []
  | EvWriteFile path content _ :: tr' => (path, content) :: writes tr'
  | _ :: tr' => writes tr'
  end.

Fixpoint fatals (tr : list event) : list string :=
  match tr with
  | [] => []
  | EvFatal msg _ :: tr' => msg :: fatals tr'
  | _ :: tr' => fatals tr'
  end.

(** The [n] commands numbered from [b] on all succeed. *)
Definition all_succeed (f : nat -> option error) (b n : nat) : Prop :=
  forall k, k < n -> f (b + k) = None.

(** The version [major.minor] that [parseVersion] makes of a flag. *)
Definition version_of (e : env) (flag : string) : option string :=
  match semver_NewVersion e (TrimPrefix_v flag) with
  | inl (major, minor) =>
      Some (format_uint major ++ "." ++ format_uint minor)%string
  | inr _ => None
  end.

(** A release that meets no failure. *)
Definition smooth : env :=
  mkEnv (fun _ => None) (fun _ => "")
        (fun _ => inl (1%N, 4%N))
        (fun _ => inl "namespace: anza-labs-kubelet-plugins")
        None.

End release_defs.

(** * Properties *)

(** ** Discovery, ListAndWatch and Allocate *)

Module tundeviceplugin_props.
Import tundeviceplugin.
Import tundeviceplugin_defs.

Lemma wrap_uint_small (n : N) : (n < uint_modulus)%N -> wrap_uint n = n.
Proof. intros H. unfold wrap_uint. apply N.mod_small. exact H. Qed.

Lemma discover_loop_spec :
  forall (count first : nat) (s : Server) (fuel : nat),
    N.to_nat (devices s) = first + count ->
    (devices s < uint_modulus)%N ->
    count < fuel ->
    discover_loop fuel (N.of_nat first) s =
    Some (mkServer (namespace s) (devices s)
            (devs s ++ spec_roster_from first count)).
Proof.
  induction count as [|count IH]; intros first s fuel Hdev Hlt Hfuel;
    (destruct fuel as [|fuel]; [lia|]); simpl.
  - replace (N.of_nat first <? devices s)%N with false
      by (symmetry; apply N.ltb_ge; lia).
    destruct s as [ns dv ds]. simpl. unfold spec_roster_from. simpl.
    now rewrite app_nil_r.
  - replace (N.of_nat first <? devices s)%N with true
      by (symmetry; apply N.ltb_lt; lia).
    rewrite wrap_uint_small by lia.
    replace (N.of_nat first + 1)%N with (N.of_nat (S first)) by lia.
    rewrite IH; simpl; try lia.
    unfold spec_roster_from. simpl. now rewrite <- app_assoc.
Qed.

Lemma spec_roster_from_length (first count : nat) :
  List.length (spec_roster_from first count) = count.
Proof. unfold spec_roster_from. now rewrite length_map, length_seq. Qed.

Lemma spec_roster_from_nth (first count i : nat) :
  i < count ->
  nth_error (spec_roster_from first count) i =
  Some (mkDevice ("tun" ++ format_uint (N.of_nat (first + i))) Healthy).
Proof.
  intros H. unfold spec_roster_from.
  rewrite nth_error_map, nth_error_seq.
  destruct (Nat.ltb_spec i count); [reflexivity | lia].
Qed.

(** C2.  For a device count [n] (a [uint]) and enough fuel for the loop:
    when [os.Stat] of /dev/net/tun succeeds, [New] returns a server whose
    roster has exactly [n] devices, the i-th with ID "tun<i>" and Healthy,
    in order; when it fails, [New] still returns a server, with an empty
    roster and an error log entry. *)
Theorem New_discovers_roster (ns : string) (n : N) (fuel : nat)
    (Hn : (n < uint_modulus)%N) (Hfuel : N.to_nat n < fuel) :
  New fuel None ns n =
    Some (mkServer ns n (spec_roster n),
          [EvLogDebug "Discovered tun device"]) /\
  List.length (spec_roster n) = N.to_nat n /\
  (forall i, i < N.to_nat n ->
     nth_error (spec_roster n) i =
     Some (mkDevice ("tun" ++ format_uint (N.of_nat i)) Healthy)) /\
  (forall err,
     New fuel (Some err) ns n =
       Some (mkServer ns n [], [EvLogError "No tun device found" None])).
Proof.
  repeat split.
  - unfold New, discover.
    change 0%N with (N.of_nat 0).
    rewrite (discover_loop_spec (N.to_nat n) 0); simpl; auto.
  - apply spec_roster_from_length.
  - intros i Hi. unfold spec_roster.
    now rewrite spec_roster_from_nth.
Qed.

Lemma New_discovers_roster_witness :
  New 4 None "devices.anza-labs.dev" 3 =
    Some (mkServer "devices.anza-labs.dev" 3
            [mkDevice "tun0" Healthy; mkDevice "tun1" Healthy;
             mkDevice "tun2" Healthy],
          [EvLogDebug "Discovered tun device"]).
Proof.
  exact (proj1 (New_discovers_roster "devices.anza-labs.dev" 3 4
                  eq_refl (le_n 4))).
Defined.

(** *** Allocate *)

(** C1, as the code has it.  Whatever the request names, a call of
    [Allocate] whose roster-changed signal is taken by a watcher returns no
    error and a response with exactly one container response, which grants
    the fixed descriptor /dev/net/tun, /dev/net/tun, "rw"; a call returns
    in no other case, and never with an error. *)
Theorem Allocate_single_fixed_response (s : Server) (req : AllocateRequest) :
  Allocate s SendReceived req =
    ([EvPublish],
     Returned
       (Some (mkAllocateResponse
                [mkContainerAllocateResponse [fixed_descriptor]]),
        None)) /\
  (forall pub,
     match snd (Allocate s pub req) with
     | Returned (resp, err) =>
         pub = SendReceived /\ err = None /\
         resp = Some (mkAllocateResponse
                        [mkContainerAllocateResponse [fixed_descriptor]])
     | Blocked => pub = SendNoReceiver
     | Panicked _ => pub = SendOnClosed
     end).
Proof.
  split; [reflexivity|].
  intros pub. destruct pub; simpl; auto.
Qed.

(** C1 fails as stated: a request that names two container groups gets a
    response with one container response, and so does a request that names
    none. *)
Lemma Allocate_not_one_response_per_group :
  let s := mkServer "devices.anza-labs.dev" 3 (spec_roster 3) in
  let req2 := mkAllocateRequest
                [mkContainerAllocateRequest ["tun0"];
                 mkContainerAllocateRequest ["tun1"; "tun2"]] in
  let req0 := mkAllocateRequest [] in
  exists resp2 resp0,
    snd (Allocate s SendReceived req2) = Returned (Some resp2, None) /\
    snd (Allocate s SendReceived req0) = Returned (Some resp0, None) /\
    List.length (ContainerRequests req2) = 2 /\
    List.length (ContainerResponses resp2) = 1 /\
    List.length (ContainerRequests req0) = 0 /\
    List.length (ContainerResponses resp0) = 1 /\
    ~ one_response_per_group req2 resp2 /\
    ~ one_response_per_group req0 resp0.
Proof.
  simpl. eexists. eexists.
  split; [reflexivity|]. split; [reflexivity|].
  unfold one_response_per_group. simpl.
  repeat split; try reflexivity; discriminate.
Qed.

(** *** ListAndWatch *)

Lemma watch_loop_spec (s : Server) (lws : ListAndWatchServer) :
  forall (obs : list recv_obs) (w : watch_state),
    watch_loop s lws obs w =
    (mkWatch (sends w + received obs)
       (trace w ++
        flat_map (send_events s lws) (seq (sends w) (received obs))),
     if closed obs then Panicked "unexpected error" else Blocked).
Proof.
  induction obs as [|o obs IH]; intros w; simpl.
  - rewrite Nat.add_0_r, app_nil_r. now destruct w.
  - destruct o; simpl.
    + rewrite IH. simpl. f_equal. f_equal; [lia|].
      unfold send_events at 2. now rewrite <- app_assoc.
    + rewrite Nat.add_0_r, app_nil_r. now destruct w.
Qed.

Lemma ListAndWatch_spec (s : Server) (lws : ListAndWatchServer)
    (obs : list recv_obs) :
  ListAndWatch s lws obs =
  (mkWatch (S (received obs))
     (flat_map (send_events s lws) (seq 0 (S (received obs)))),
   if closed obs then Panicked "unexpected error" else Blocked).
Proof.
  unfold ListAndWatch. rewrite watch_loop_spec. reflexivity.
Qed.

Lemma sent_messages_app (tr1 tr2 : list event) :
  sent_messages (tr1 ++ tr2) = sent_messages tr1 ++ sent_messages tr2.
Proof.
  induction tr1 as [|ev tr1 IH]; simpl; [reflexivity|].
  destruct ev; simpl; now rewrite ?IH.
Qed.

Lemma sent_messages_sends (s : Server) (lws : ListAndWatchServer) :
  forall (count first : nat),
    sent_messages (flat_map (send_events s lws) (seq first count)) =
    repeat (snapshot s) count.
Proof.
  induction count as [|count IH]; intros first; simpl; [reflexivity|].
  rewrite <- (IH (S first)).
  destruct (send_result lws first); reflexivity.
Qed.

Lemma received_signals (n : nat) (rest : list recv_obs) :
  received (repeat RecvValue n ++ RecvClosed :: rest) = n /\
  received (repeat RecvValue n) = n.
Proof. induction n as [|n [IH1 IH2]]; simpl; auto. Qed.

Lemma closed_signals (n : nat) (rest : list recv_obs) :
  closed (repeat RecvValue n ++ RecvClosed :: rest) = true /\
  closed (repeat RecvValue n) = false.
Proof. induction n as [|n [IH1 IH2]]; simpl; auto. Qed.

Lemma send_events_in (s : Server) (lws : ListAndWatchServer) :
  forall (count first k : nat) (ev : event),
    first <= k < first + count ->
    In ev (send_events s lws k) ->
    In ev (flat_map (send_events s lws) (seq first count)).
Proof.
  intros count first k ev Hk Hin. apply in_flat_map.
  exists k. split; [apply in_seq; lia | exact Hin].
Qed.

(** C7.  Whatever the stream and the channel do, the trace of a
    ListAndWatch call is the initial [Send] followed by one [Send] for each
    signal received, in this order (with the log entry of each failed
    [Send]): the first event is the [Send] of the full roster, it is there
    before any signal is received, and every message sent, the first and
    each resend, is the same snapshot of the roster. *)
Theorem ListAndWatch_snapshot_first_then_resends (s : Server)
    (lws : ListAndWatchServer) (obs : list recv_obs) :
  trace (fst (ListAndWatch s lws obs)) =
    send_events s lws 0 ++
    flat_map (send_events s lws) (seq 1 (received obs)) /\
  trace (fst (ListAndWatch s lws [])) = send_events s lws 0 /\
  hd_error (trace (fst (ListAndWatch s lws obs))) =
    Some (EvSend (mkListAndWatchResponse (devs s)) (send_result lws 0)) /\
  sent_messages (trace (fst (ListAndWatch s lws obs))) =
    repeat (mkListAndWatchResponse (devs s)) (S (received obs)).
Proof.
  rewrite !ListAndWatch_spec. cbn [fst trace received].
  repeat split.
  - cbn [seq flat_map]. now rewrite app_nil_r.
  - apply (sent_messages_sends s lws (S (received obs)) 0).
Qed.

(** C9.  When the update channel is closed, after any number of signals,
    ListAndWatch panics with "unexpected error"; and on no observations
    does it return, with or without an error: it is blocked at the receive
    while the channel is open and panics once it is closed. *)
Theorem ListAndWatch_closed_channel_panics (s : Server)
    (lws : ListAndWatchServer) (n : nat) (rest obs : list recv_obs) :
  snd (ListAndWatch s lws (repeat RecvValue n ++ RecvClosed :: rest)) =
    Panicked "unexpected error" /\
  match snd (ListAndWatch s lws obs) with
  | Returned _ => False
  | Blocked => closed obs = false
  | Panicked msg => closed obs = true /\ msg = "unexpected error"
  end.
Proof.
  rewrite !ListAndWatch_spec. cbn [snd]. split.
  - now rewrite (proj1 (closed_signals n rest)).
  - destruct (closed obs); auto.
Qed.

(** C10.  Whatever calls of [Send] fail, on the first message or on a
    resend: after [n] signals ListAndWatch has called [Send] [n + 1] times
    and is blocked at the next receive, as it is when no [Send] fails; each
    failed [Send] is in the trace with its log entry; and ListAndWatch
    returns on no observations, so it returns no error of [Send]. *)
Theorem ListAndWatch_send_failure_only_logged (s : Server)
    (lws : ListAndWatchServer) (n : nat) :
  snd (ListAndWatch s lws (repeat RecvValue n)) = Blocked /\
  sends (fst (ListAndWatch s lws (repeat RecvValue n))) = S n /\
  (forall k err,
     k <= n -> send_result lws k = Some err ->
     In (EvSend (mkListAndWatchResponse (devs s)) (Some err))
        (trace (fst (ListAndWatch s lws (repeat RecvValue n)))) /\
     In (EvLogError "Failed to send ListAndWatch response" (Some err))
        (trace (fst (ListAndWatch s lws (repeat RecvValue n))))) /\
  (forall obs,
     snd (ListAndWatch s lws obs) =
       snd (ListAndWatch s (mkStream (fun _ => None)) obs) /\
     sends (fst (ListAndWatch s lws obs)) =
       sends (fst (ListAndWatch s (mkStream (fun _ => None)) obs)) /\
     forall res, snd (ListAndWatch s lws obs) <> Returned res).
Proof.
  rewrite !ListAndWatch_spec. cbn [fst snd sends trace].
  rewrite (proj2 (closed_signals n [])), (proj2 (received_signals n [])).
  split; [reflexivity|]. split; [reflexivity|]. split.
  - intros k err Hk Hres.
    split; apply (send_events_in s lws (S n) 0 k); try lia;
      unfold send_events; rewrite Hres; [now left | right; now left].
  - intros obs. rewrite !ListAndWatch_spec. cbn [fst snd sends].
    split; [reflexivity|]. split; [reflexivity|].
    intros res. destruct (closed obs); discriminate.
Qed.

(** The end-to-end scenario of the specification: with three devices and
    the host path present, the first message of a watch stream lists tun0,
    tun1 and tun2, all healthy, and Allocate for tun0 grants /dev/net/tun
    read-write in one container response. *)
Example three_devices_end_to_end :
  exists s log,
    New 4 None "devices.anza-labs.dev" 3 = Some (s, log) /\
    hd_error (sent_messages
                (trace (fst (ListAndWatch s (mkStream (fun _ => None)) [])))) =
      Some (mkListAndWatchResponse
              [mkDevice "tun0" Healthy; mkDevice "tun1" Healthy;
               mkDevice "tun2" Healthy]) /\
    snd (Allocate s SendReceived
           (mkAllocateRequest [mkContainerAllocateRequest ["tun0"]])) =
      Returned
        (Some (mkAllocateResponse
                 [mkContainerAllocateResponse
                    [mkDeviceSpec "/dev/net/tun" "/dev/net/tun" "rw"]]),
         None).
Proof. eexists. eexists. repeat split. Qed.

(** *** The identifiers of the roster *)

Lemma format_uint_inj (i j : N) : format_uint i = format_uint j -> i = j.
Proof.
  unfold format_uint. intros H.
  apply DecimalN.Unsigned.to_uint_inj.
  assert (Hnil : forall n, N.to_uint n <> Decimal.Nil).
  { intros [|p]; [discriminate|]. simpl.
    apply DecimalPos.Unsigned.to_uint_nonnil. }
  pose proof (NilZero.usu (N.to_uint i) (Hnil i)) as Hi.
  pose proof (NilZero.usu (N.to_uint j) (Hnil j)) as Hj.
  rewrite H in Hi. rewrite Hi in Hj. now injection Hj.
Qed.

Lemma spec_roster_from_ids_distinct (first count : nat) :
  NoDup (map ID (spec_roster_from first count)).
Proof.
  unfold spec_roster_from. rewrite map_map. cbn [ID].
  apply Injective_map_NoDup; [|apply seq_NoDup].
  intros i j H. injection H as H.
  apply format_uint_inj in H. lia.
Qed.

(** X1.  For a device count [n] (a [uint]) and enough fuel, whatever
    [os.Stat] answers, [New] returns a server in which no two devices of the
    roster share an ID, and every device is Healthy. *)
Theorem roster_ids_distinct (ns : string) (n : N) (fuel : nat)
    (stat : option error)
    (Hn : (n < uint_modulus)%N) (Hfuel : N.to_nat n < fuel) :
  exists s log,
    New fuel stat ns n = Some (s, log) /\
    NoDup (map ID (devs s)) /\
    Forall (fun d => DeviceHealth d = Healthy) (devs s).
Proof.
  destruct stat as [err|].
  - eexists. eexists. split; [reflexivity|]. split; constructor.
  - unfold New, discover. change 0%N with (N.of_nat 0).
    rewrite (discover_loop_spec (N.to_nat n) 0); simpl; auto.
    eexists. eexists. split; [reflexivity|]. simpl. split.
    + apply spec_roster_from_ids_distinct.
    + unfold spec_roster_from. apply Forall_map.
      apply Forall_forall. reflexivity.
Qed.

Lemma roster_ids_distinct_witness :
  exists s log,
    New 4 None "devices.anza-labs.dev" 3 = Some (s, log) /\
    NoDup (map ID (devs s)) /\
    Forall (fun d => DeviceHealth d = Healthy) (devs s).
Proof.
  exact (roster_ids_distinct "devices.anza-labs.dev" 3 4 None
           eq_refl (le_n 4)).
Defined.

(** *** Allocate calls and the watchers they wake *)

Lemma attach_ok (s : Server) (lws : ListAndWatchServer) :
  watcher_ok s (attach s lws) /\ sends (state (attach s lws)) = 1.
Proof.
  unfold watcher_ok, attach. rewrite ListAndWatch_spec. cbn [state fst].
  cbn [sends trace received]. split; [|reflexivity].
  apply (sent_messages_sends s lws 1 0).
Qed.

Lemma wake_ok (s : Server) (w : watcher) :
  (watcher_ok s w -> watcher_ok s (wake s w)) /\
  sends (state (wake s w)) = S (sends (state w)) /\
  stream (wake s w) = stream w.
Proof.
  unfold watcher_ok, wake. cbn [state stream watch_loop fst].
  unfold send_roster. cbn [sends trace].
  split; [|split; reflexivity].
  intros H. rewrite sent_messages_app, H.
  replace (sent_messages _) with [snapshot s]
    by (simpl; destruct (send_result (stream w) (sends (state w)));
        reflexivity).
  now rewrite <- repeat_cons.
Qed.

Lemma total_sends_cons (w : watcher) (ws : list watcher) :
  total_sends (w :: ws) = sends (state w) + total_sends ws.
Proof. reflexivity. Qed.

Lemma wake_nth_spec (s : Server) :
  forall (ws : list watcher) (i : nat),
    i < List.length ws ->
    List.length (wake_nth s ws i) = List.length ws /\
    total_sends (wake_nth s ws i) = S (total_sends ws) /\
    (Forall (watcher_ok s) ws -> Forall (watcher_ok s) (wake_nth s ws i)) /\
    map stream (wake_nth s ws i) = map stream ws /\
    forall j, j <> i -> nth_error (wake_nth s ws i) j = nth_error ws j.
Proof.
  induction ws as [|w ws IH]; intros i Hi; simpl in Hi; [lia|].
  destruct i as [|i]; cbn [wake_nth map List.length];
    rewrite !total_sends_cons.
  - destruct (wake_ok s w) as (Hok & Hsends & Hstream).
    rewrite Hsends, Hstream. repeat split; try reflexivity.
    + intros Hall. inversion Hall; subst. constructor; auto.
    + intros [|j] Hj; [contradiction | reflexivity].
  - destruct (IH i ltac:(lia)) as (Hlen & Hsum & Hok & Hstream & Hnth).
    rewrite Hlen, Hsum, Hstream. repeat split; try lia; try reflexivity.
    + intros Hall. inversion Hall; subst. constructor; auto.
    + intros [|j] Hj; [reflexivity|]. cbn [nth_error]. apply Hnth. lia.
Qed.

Lemma all_messages_ok (s : Server) (ws : list watcher) :
  Forall (watcher_ok s) ws ->
  all_messages ws = repeat (snapshot s) (total_sends ws).
Proof.
  unfold all_messages, total_sends.
  induction 1 as [|w ws Hw Hws IH]; simpl; [reflexivity|].
  rewrite repeat_app, IH, Hw. reflexivity.
Qed.

Lemma allocate_all_spec (s : Server) :
  forall (calls : list (nat * AllocateRequest)) (ws : list watcher),
    ws <> [] ->
    List.length (fst (allocate_all s ws calls)) = List.length ws /\
    map stream (fst (allocate_all s ws calls)) = map stream ws /\
    total_sends (fst (allocate_all s ws calls)) =
      total_sends ws + List.length calls /\
    snd (allocate_all s ws calls) = repeat granted (List.length calls) /\
    (Forall (watcher_ok s) ws ->
     Forall (watcher_ok s) (fst (allocate_all s ws calls))).
Proof.
  induction calls as [|[pick req] calls IH]; intros ws Hne.
  - simpl. repeat split; auto.
  - cbn [allocate_all]. cbv zeta.
    destruct ws as [|w ws]; [contradiction|].
    unfold allocate_with. cbn [fst snd].
    set (i := pick mod List.length (w :: ws)).
    assert (Hi : i < List.length (w :: ws))
      by (apply Nat.mod_upper_bound; discriminate).
    destruct (wake_nth_spec s (w :: ws) i Hi)
      as (Hlen & Hsum & Hok & Hstream & _).
    assert (Hne' : wake_nth s (w :: ws) i <> []).
    { intros E. rewrite E in Hlen. discriminate. }
    destruct (IH (wake_nth s (w :: ws) i) Hne')
      as (Hlen' & Hstream' & Hsum' & Hres & Hok').
    rewrite Hlen', Hstream', Hsum', Hres, Hlen, Hsum, Hstream.
    repeat split; auto; simpl; lia.
Qed.

(** X2.  Allocate and the watch streams compose through the unbuffered
    update channel.  With no stream open every call of [Allocate] stays
    blocked at its send and no message is sent.  With streams open, every
    call returns the fixed grant with no error and wakes exactly one
    watcher: after the calls the watchers are the same streams, they have
    sent one message each at the opening plus one per call, and every
    message is the snapshot of the roster, which no call changes.  A single
    call leaves every watcher but the one the runtime picks as it was. *)
Theorem allocations_wake_one_watcher_each (s : Server)
    (streams : list ListAndWatchServer)
    (calls : list (nat * AllocateRequest)) (ws : list watcher)
    (pick : nat) (req : AllocateRequest) :
  let after := allocate_all s (map (attach s) streams) calls in
  allocate_all s [] calls = ([], repeat Blocked (List.length calls)) /\
  map stream (fst after) = streams /\
  snd after =
    match streams with
    | [] => repeat Blocked (List.length calls)
    | _ :: _ => repeat granted (List.length calls)
    end /\
  total_sends (fst after) =
    match streams with
    | [] => 0
    | _ :: _ => List.length streams + List.length calls
    end /\
  all_messages (fst after) = repeat (snapshot s) (total_sends (fst after)) /\
  (forall j,
     j <> pick mod List.length ws ->
     nth_error (fst (allocate_with s ws pick req)) j = nth_error ws j).
Proof.
  cbv zeta.
  assert (Hblocked : forall cs,
            allocate_all s [] cs = ([], repeat Blocked (List.length cs))).
  { induction cs as [|[p r] cs IH]; [reflexivity|].
    cbn [allocate_all]. cbv zeta. cbn [allocate_with fst snd].
    rewrite IH. reflexivity. }
  assert (Hattach : forall l,
            Forall (watcher_ok s) (map (attach s) l) /\
            total_sends (map (attach s) l) = List.length l /\
            map stream (map (attach s) l) = l).
  { induction l as [|lws l (IH1 & IH2 & IH3)];
      [repeat split; constructor|].
    cbn [map List.length]. rewrite total_sends_cons.
    destruct (attach_ok s lws) as (Hok & Hsends).
    rewrite Hsends, IH2, IH3. repeat split; auto. }
  split; [apply Hblocked|].
  destruct streams as [|lws streams].
  - simpl map. rewrite Hblocked. repeat split.
    intros j Hj. destruct ws as [|w ws]; [reflexivity|].
    unfold allocate_with. cbn [fst].
    apply wake_nth_spec; [|exact Hj].
    apply Nat.mod_upper_bound. discriminate.
  - destruct (Hattach (lws :: streams)) as (Hok & Hsum & Hstream).
    destruct (allocate_all_spec s calls (map (attach s) (lws :: streams)))
      as (Hlen' & Hstream' & Hsum' & Hres & Hok'); [discriminate|].
    rewrite Hstream', Hstream, Hres, Hsum', Hsum.
    repeat split.
    + rewrite (all_messages_ok s _ (Hok' Hok)). now rewrite Hsum', Hsum.
    + intros j Hj. destruct ws as [|w ws]; [reflexivity|].
      unfold allocate_with. cbn [fst].
      apply wake_nth_spec; [|exact Hj].
      apply Nat.mod_upper_bound. discriminate.
Qed.

End tundeviceplugin_props.

(** ** Retry, registration and panic recovery *)

Module plugin_props.
Import plugin.
Local Open Scope nat_scope.
Import plugin_defs.

(** *** Running the state monad *)

(** Reduces the projections of a pair and of a world that is given field by
    field. *)
Ltac world_simpl :=
  cbn [fst snd dials checks registers conn PanicCounter trace target].

Lemma run_bind {A B : Type} (c : M A) (f : A -> M B) (w : world) :
  runState (bind c f) w =
  runState (f (fst (runState c w))) (snd (runState c w)).
Proof. simpl. now destruct (runState c w). Qed.

Lemma run_ret {A : Type} (a : A) (w : world) : runState (ret a) w = (a, w).
Proof. reflexivity. Qed.

Lemma run_emit (ev : event) (w : world) :
  runState (emit ev) w =
  (tt, mkWorld (dials w) (checks w) (registers w) (conn w) (PanicCounter w)
         (trace w ++ [ev])).
Proof. reflexivity. Qed.

Lemma run_set_conn (c : option ClientConn) (w : world) :
  runState (set_conn c) w =
  (tt, mkWorld (dials w) (checks w) (registers w) c (PanicCounter w)
         (trace w)).
Proof. reflexivity. Qed.

Lemma run_backoff (attempt : Z) (w : world) :
  runState (backoff attempt) w = (tt, after_backoff attempt w).
Proof.
  unfold backoff, after_backoff, time_Sleep, emit. simpl.
  now rewrite <- app_assoc.
Qed.

Lemma retry_from_S (n : nat) (a : Z) (err0 : option error)
    (op : M (option error)) (w : world) :
  runState (retry_from (S n) a err0 op) w =
  match fst (runState op w) with
  | None => (None, snd (runState op w))
  | Some _ =>
      runState (retry_from n (a + 1) (fst (runState op w)) op)
               (after_backoff a (snd (runState op w)))
  end.
Proof.
  cbn [retry_from]. rewrite run_bind.
  destruct (fst (runState op w)) as [err|]; [|reflexivity].
  rewrite run_bind, run_backoff. reflexivity.
Qed.

(** *** The loop of [retry], for any operation *)

Lemma retry_from_succeeds (op : M (option error)) :
  forall (n : nat) (a : Z) (err0 : option error) (w : world) (k : nat),
    k < n ->
    (forall j, j < k -> attempt_result op a w j <> None) ->
    attempt_result op a w k = None ->
    runState (retry_from n a err0 op) w =
    (None, snd (runState op (attempt_world op a w k))).
Proof.
  induction n as [|n IH]; intros a err0 w k Hk Hfail Hok; [lia|].
  rewrite retry_from_S.
  destruct k as [|k].
  - unfold attempt_result in Hok. simpl in Hok. now rewrite Hok.
  - assert (H0 := Hfail 0 ltac:(lia)).
    unfold attempt_result in H0. simpl in H0.
    destruct (fst (runState op w)) as [err|]; [|congruence].
    simpl. apply IH; [lia| |exact Hok].
    intros j Hj. apply (Hfail (S j)). lia.
Qed.

Lemma retry_from_exhausts (op : M (option error)) :
  forall (n : nat) (a : Z) (err0 : option error) (w : world),
    (forall j, j < n -> attempt_result op a w j <> None) ->
    runState (retry_from n a err0 op) w =
    (Some (retry_error
             match n with
             | O => err0
             | S n' => attempt_result op a w n'
             end),
     attempt_world op a w n).
Proof.
  induction n as [|n IH]; intros a err0 w Hfail; [reflexivity|].
  rewrite retry_from_S.
  assert (H0 := Hfail 0 ltac:(lia)).
  unfold attempt_result in H0. simpl in H0.
  destruct (fst (runState op w)) as [err|] eqn:Hop; [|congruence].
  rewrite IH.
  - simpl. destruct n as [|n]; [|reflexivity].
    unfold attempt_result. simpl. now rewrite Hop.
  - intros j Hj. apply (Hfail (S j)). lia.
Qed.

Lemma first_success_spec (op : M (option error)) :
  forall (n : nat) (a : Z) (w : world),
    match first_success op a w n with
    | Some k =>
        k < n /\ attempt_result op a w k = None /\
        forall j, j < k -> attempt_result op a w j <> None
    | None => forall j, j < n -> attempt_result op a w j <> None
    end.
Proof.
  induction n as [|n IH]; intros a w; simpl; [intros j Hj; lia|].
  destruct (fst (runState op w)) as [err|] eqn:Hop.
  - specialize (IH (a + 1)%Z (after_backoff a (snd (runState op w)))).
    destruct (first_success op (a + 1)
                (after_backoff a (snd (runState op w))) n)
      as [k|]; simpl.
    + destruct IH as (Hk & Hok & Hfail). repeat split; [lia|exact Hok|].
      intros [|j] Hj.
      * unfold attempt_result. simpl. now rewrite Hop.
      * apply Hfail. lia.
    + intros [|j] Hj.
      * unfold attempt_result. simpl. now rewrite Hop.
      * apply IH. lia.
  - repeat split; [lia|exact Hop|]. intros j Hj. lia.
Qed.

(** *** The two retried operations *)

Lemma run_dial_op (e : env) (socket : string) (w : world) :
  runState (dial_op e socket) w =
  (dial_result e (dials w),
   mkWorld (S (dials w)) (checks w) (registers w)
     (dial_conn socket (dial_result e (dials w))) (PanicCounter w)
     (trace w ++ [EvNewClient socket (dial_result e (dials w))])).
Proof. reflexivity. Qed.

Lemma run_check_op (e : env) (name : string) (w : world) :
  runState (check_op e name) w =
  (check_error (check_result e (checks w)),
   mkWorld (dials w) (S (checks w)) (registers w) (conn w) (PanicCounter w)
     (trace w ++ [EvHealthCheck name (fst (check_result e (checks w)))
                    (snd (check_result e (checks w)))])).
Proof.
  unfold check_op, check_error. rewrite run_bind. simpl.
  destruct (check_result e (checks w)) as [st [err|]]; simpl;
    [reflexivity|]. now destruct (is_SERVING st).
Qed.

Lemma leading_failures_le (res : nat -> option error) :
  forall n b, leading_failures res b n <= n.
Proof.
  induction n as [|n IH]; intros b; simpl; [lia|].
  destruct (res b); [|lia]. specialize (IH (S b)). lia.
Qed.

Lemma retry_from_dial (e : env) (socket : string) :
  forall (n : nat) (a : Z) (err0 : option error) (w : world),
    conn w = None ->
    let m := leading_failures (dial_result e) (dials w) n in
    runState (retry_from n a err0 (dial_op e socket)) w =
    (loop_result (dial_result e) (dials w) m n err0,
     mkWorld (dials w + calls_made m n) (checks w) (registers w)
       (if m =? n then None else Some (mkClientConn socket))
       (PanicCounter w)
       (trace w ++ loop_events (dial_event e socket) (dials w) a m n)).
Proof.
  induction n as [|n IH]; intros a err0 w Hconn.
  - simpl. unfold loop_result, loop_events, calls_made. simpl.
    rewrite Nat.add_0_r, app_nil_r, <- Hconn. now destruct w.
  - cbv zeta. rewrite retry_from_S, run_dial_op. cbn [fst snd].
    cbn [leading_failures].
    destruct (dial_result e (dials w)) as [err|] eqn:Hres.
    + rewrite IH by reflexivity. cbv zeta.
      unfold after_backoff, loop_result, loop_events, calls_made.
      cbn [dials checks registers conn PanicCounter trace].
      change (S (leading_failures (dial_result e) (S (dials w)) n) =? S n)
        with (leading_failures (dial_result e) (S (dials w)) n =? n).
      destruct (leading_failures (dial_result e) (S (dials w)) n =? n)
        eqn:Hm.
      * f_equal; [|f_equal].
        -- unfold last_result. destruct n as [|n]; simpl.
           ++ now rewrite Nat.add_0_r, Hres.
           ++ now replace (dials w + S n) with (S (dials w + n)) by lia.
        -- lia.
        -- cbn [failed_attempts].
           change (dial_event e socket (dials w))
             with (EvNewClient socket (dial_result e (dials w))).
           rewrite Hres, !app_nil_r, <- !app_assoc. reflexivity.
      * f_equal. f_equal; [lia|].
        cbn [failed_attempts].
           change (dial_event e socket (dials w))
             with (EvNewClient socket (dial_result e (dials w))).
        rewrite Hres, <- !app_assoc. cbn [app].
        now replace (dials w + S (leading_failures (dial_result e)
                                    (S (dials w)) n))
          with (S (dials w) +
                leading_failures (dial_result e) (S (dials w)) n) by lia.
    + unfold loop_result, loop_events, calls_made. simpl.
      rewrite Nat.add_0_r. unfold dial_event. rewrite Hres.
      f_equal. f_equal. lia.
Qed.

Lemma retry_from_check (e : env) (name : string) :
  forall (n : nat) (a : Z) (err0 : option error) (w : world),
    let m := leading_failures (check_res e) (checks w) n in
    runState (retry_from n a err0 (check_op e name)) w =
    (loop_result (check_res e) (checks w) m n err0,
     mkWorld (dials w) (checks w + calls_made m n) (registers w) (conn w)
       (PanicCounter w)
       (trace w ++ loop_events (check_event e name) (checks w) a m n)).
Proof.
  induction n as [|n IH]; intros a err0 w.
  - simpl. unfold loop_result, loop_events, calls_made. simpl.
    rewrite Nat.add_0_r, app_nil_r. now destruct w.
  - cbv zeta. rewrite retry_from_S, run_check_op. cbn [fst snd].
    cbn [leading_failures]. fold (check_res e (checks w)).
    destruct (check_res e (checks w)) as [err|] eqn:Hres.
    + rewrite IH. cbv zeta.
      unfold after_backoff, loop_result, loop_events, calls_made.
      cbn [dials checks registers conn PanicCounter trace].
      change (S (leading_failures (check_res e) (S (checks w)) n) =? S n)
        with (leading_failures (check_res e) (S (checks w)) n =? n).
      destruct (leading_failures (check_res e) (S (checks w)) n =? n)
        eqn:Hm.
      * f_equal; [|f_equal].
        -- unfold last_result. destruct n as [|n]; simpl.
           ++ now rewrite Nat.add_0_r, Hres.
           ++ now replace (checks w + S n) with (S (checks w + n)) by lia.
        -- lia.
        -- cbn [failed_attempts].
           rewrite !app_nil_r, <- !app_assoc. reflexivity.
      * f_equal. f_equal; [lia|].
        cbn [failed_attempts]. rewrite <- !app_assoc. cbn [app].
        now replace (checks w + S (leading_failures (check_res e)
                                     (S (checks w)) n))
          with (S (checks w) +
                leading_failures (check_res e) (S (checks w)) n) by lia.
    + unfold loop_result, loop_events, calls_made. simpl.
      rewrite Nat.add_0_r. f_equal. f_equal. lia.
Qed.

(** *** The calls of the handshake, in closed form *)

Lemma run_connectGRPCWithRetry (e : env) (socket : string) (w : world) :
  let m := leading_failures (dial_result e) (dials w) 5 in
  runState (connectGRPCWithRetry e socket) w =
  ((if m =? 5 then None else Some (mkClientConn socket),
    loop_result (dial_result e) (dials w) m 5 None),
   mkWorld (dials w + calls_made m 5) (checks w) (registers w)
     (if m =? 5 then None else Some (mkClientConn socket))
     (PanicCounter w)
     (trace w ++ loop_events (dial_event e socket) (dials w) 0 m 5)).
Proof.
  cbv zeta. unfold connectGRPCWithRetry.
  rewrite run_bind, run_set_conn. cbn [fst snd].
  rewrite run_bind. unfold retry.
  change (Z.to_nat maxRetries) with 5.
  fold (dial_op e socket).
  rewrite (retry_from_dial e socket 5 0 None) by reflexivity.
  reflexivity.
Qed.

Lemma run_waitForPluginReady (e : env) (name socket : string) (w : world) :
  runState (waitForPluginReady e name socket) w =
  (ready_result e w, ready_world e name socket w).
Proof.
  unfold waitForPluginReady.
  rewrite run_bind, run_emit. cbn [fst snd].
  rewrite run_bind, run_connectGRPCWithRetry. cbv zeta. world_simpl.
  unfold ready_result, ready_world, ready_events.
  unfold loop_result at 1.
  destruct (leading_failures (dial_result e) (dials w) 5 =? 5) eqn:Hm1.
  - rewrite run_ret. cbn [last_result].
    rewrite app_nil_r, <- !app_assoc. reflexivity.
  - rewrite run_bind. unfold retry.
    change (Z.to_nat maxRetries) with 5.
    fold (check_op e name).
    rewrite (retry_from_check e name 5 0 None). cbv zeta.
    world_simpl.
    rewrite run_bind. unfold ClientConn_Close. rewrite run_emit.
    world_simpl.
    unfold loop_result.
    destruct (leading_failures (check_res e) (checks w) 5 =? 5) eqn:Hm2;
      rewrite run_ret; cbn [last_result];
      rewrite <- !app_assoc; reflexivity.
Qed.

Lemma run_kubelet_Register (e : env) (req : RegisterRequest) (w : world) :
  runState (kubelet_Register e req) w =
  (register_result e (registers w),
   mkWorld (dials w) (checks w) (S (registers w)) (conn w) (PanicCounter w)
     (trace w ++ [EvRegister req (register_result e (registers w))])).
Proof. reflexivity. Qed.

Lemma run_registerWithKubelet (e : env) (name socket : string)
    (w : world) :
  runState (registerWithKubelet e name socket) w =
  (kubelet_result e w, kubelet_world e name socket w).
Proof.
  unfold registerWithKubelet.
  rewrite run_bind, run_emit. cbn [fst snd].
  fold kubelet_target.
  rewrite run_bind, run_connectGRPCWithRetry. cbv zeta. world_simpl.
  unfold kubelet_result, kubelet_world, kubelet_events.
  unfold loop_result at 1.
  destruct (leading_failures (dial_result e) (dials w) 5 =? 5) eqn:Hm3.
  - rewrite run_ret. cbn [last_result].
    rewrite app_nil_r, <- !app_assoc. reflexivity.
  - rewrite run_bind, run_kubelet_Register.
    world_simpl.
    rewrite run_bind. unfold ClientConn_Close. rewrite run_emit.
    world_simpl.
    fold (register_request name socket).
    destruct (register_result e (registers w)) as [err|];
      rewrite run_ret; rewrite <- !app_assoc; reflexivity.
Qed.

Lemma run_RegisterDevicePlugin (e : env) (name socket : string)
    (w : world) :
  runState (RegisterDevicePlugin e name socket) w =
  (registration_result e name socket w,
   registration_world e name socket w).
Proof.
  unfold RegisterDevicePlugin, registration_result, registration_world.
  rewrite run_bind, run_waitForPluginReady. cbn [fst snd].
  destruct (ready_result e w) as [err|]; [reflexivity|].
  rewrite run_bind, run_registerWithKubelet. cbn [fst snd].
  now destruct (kubelet_result e (ready_world e name socket w)).
Qed.

Lemma register_calls_app (tr1 tr2 : list event) :
  register_calls (tr1 ++ tr2) = register_calls tr1 + register_calls tr2.
Proof.
  induction tr1 as [|ev tr1 IH]; simpl; [reflexivity|].
  destruct ev; simpl; now rewrite ?IH.
Qed.

Lemma register_calls_loop (ev : nat -> event) :
  (forall i, register_calls [ev i] = 0) ->
  forall m n b a, register_calls (loop_events ev b a m n) = 0.
Proof.
  intros Hev m n b a. unfold loop_events. rewrite register_calls_app.
  replace (register_calls (if m =? n then [] else [ev (b + m)])) with 0
    by (destruct (m =? n); [reflexivity | now rewrite Hev]).
  rewrite Nat.add_0_r. revert b a.
  induction m as [|m IH]; intros b a; simpl; [reflexivity|].
  specialize (Hev b). simpl in Hev.
  destruct (ev b); try discriminate; apply IH.
Qed.

Lemma register_calls_ready (e : env) (name socket : string) (w : world) :
  register_calls (ready_events e name socket w) = 0.
Proof.
  unfold ready_events. cbv zeta. cbn [register_calls].
  rewrite register_calls_app, register_calls_loop by reflexivity.
  destruct (_ =? 5); [reflexivity|].
  rewrite register_calls_app, register_calls_loop by reflexivity.
  reflexivity.
Qed.

(** *** The backoff delays *)

Lemma wrap_int64_small (z : Z) :
  (- int64_half <= z < int64_half)%Z -> wrap_int64 z = z.
Proof.
  intros H. unfold wrap_int64, int64_modulus, int64_half in *.
  rewrite Z.mod_small; lia.
Qed.

Lemma computedDelay_small (k : Z) :
  (0 <= k <= 36)%Z -> computedDelay k = (baseDelay * 2 ^ k)%Z.
Proof.
  intros Hk. unfold computedDelay.
  rewrite Z.shiftl_1_l.
  assert (Hpow : (0 < 2 ^ k <= 2 ^ 36)%Z).
  { split; [apply Z.pow_pos_nonneg; lia|].
    apply Z.pow_le_mono_r; lia. }
  change (2 ^ 36)%Z with 68719476736%Z in Hpow.
  rewrite (wrap_int64_small (2 ^ k)).
  - apply wrap_int64_small.
    unfold int64_half, baseDelay, Millisecond.
    change (2 ^ 63)%Z with 9223372036854775808%Z. lia.
  - unfold int64_half. change (2 ^ 63)%Z with 9223372036854775808%Z. lia.
Qed.

(** C3, as the code has it.  The delay that [retry] computes in the
    iteration of attempt [k] (0-indexed), and sleeps after that attempt
    has failed (so before attempt [k + 1], or before the error is
    returned after the last attempt), is [min(baseDelay * 2^k, maxDelay)]
    for every [k] up to 36, where the [int64] product does not overflow;
    for attempts 0..4 the delays are 100ms, 200ms, 400ms, 800ms, 1600ms; a
    6th attempt would compute 3200ms; and an attempt whose computed delay
    is at least 5s sleeps exactly 5s. *)
Theorem backoffDelay_after_failed_attempt (k : Z) (Hk : (0 <= k <= 36)%Z) :
  backoffDelay k = Z.min (baseDelay * 2 ^ k) maxDelay /\
  map backoffDelay [0; 1; 2; 3; 4]%Z =
    [ms 100; ms 200; ms 400; ms 800; ms 1600] /\
  backoffDelay 5 = ms 3200 /\
  (forall a, (maxDelay <= computedDelay a)%Z -> backoffDelay a = ms 5000) /\
  (forall op n err0 err w,
     fst (runState op w) = Some err ->
     runState (retry_from (S n) k err0 op) w =
     runState (retry_from n (k + 1) (Some err) op)
              (after_backoff k (snd (runState op w))) /\
     trace (after_backoff k (snd (runState op w))) =
     trace (snd (runState op w)) ++
     [EvLogBackoff (backoffDelay k); EvSleep (backoffDelay k)]) /\
  (forall e socket w,
     leading_failures (dial_result e) (dials w) 5 = 5 ->
     trace (snd (runState (connectGRPCWithRetry e socket) w)) =
     trace w ++
     [dial_event e socket (dials w);
      EvLogBackoff (ms 100); EvSleep (ms 100);
      dial_event e socket (dials w + 1);
      EvLogBackoff (ms 200); EvSleep (ms 200);
      dial_event e socket (dials w + 2);
      EvLogBackoff (ms 400); EvSleep (ms 400);
      dial_event e socket (dials w + 3);
      EvLogBackoff (ms 800); EvSleep (ms 800);
      dial_event e socket (dials w + 4);
      EvLogBackoff (ms 1600); EvSleep (ms 1600)]).
Proof.
  split; [|split; [|split; [|split; [|split]]]].
  - unfold backoffDelay. rewrite computedDelay_small by exact Hk.
    destruct (Z.gtb_spec (baseDelay * 2 ^ k) maxDelay); lia.
  - reflexivity.
  - reflexivity.
  - intros a Ha. unfold backoffDelay.
    destruct (Z.gtb_spec (computedDelay a) maxDelay) as [Hgt|Hle];
      [reflexivity|].
    change (ms 5000) with maxDelay. lia.
  - intros op n err0 err w Hop. split; [|reflexivity].
    rewrite retry_from_S, Hop. reflexivity.
  - intros e socket w Hm.
    rewrite run_connectGRPCWithRetry. cbv zeta. rewrite Hm.
    cbn [snd trace]. unfold loop_events. cbn [Nat.eqb failed_attempts].
    rewrite app_nil_r.
    replace (S (dials w)) with (dials w + 1) by lia.
    replace (S (dials w + 1)) with (dials w + 2) by lia.
    replace (S (dials w + 2)) with (dials w + 3) by lia.
    replace (S (dials w + 3)) with (dials w + 4) by lia.
    reflexivity.
Qed.

Lemma backoffDelay_after_failed_attempt_witness :
  backoffDelay 3 = Z.min (baseDelay * 2 ^ 3) maxDelay.
Proof.
  apply (backoffDelay_after_failed_attempt 3). lia.
Defined.

(** C3 fails as stated: in a run of the loop in which every attempt
    fails, no delay precedes attempt 0, and the delay before attempt [k + 1]
    is the one computed from [k]; the delay of 1600ms follows the last
    attempt. *)
Lemma no_delay_before_first_attempt :
  let tr := trace (snd (runState (connectGRPCWithRetry refusing tun_socket)
                          fresh)) in
  delays_before_attempts None tr =
    [None; Some (ms 100); Some (ms 200); Some (ms 400); Some (ms 800)] /\
  map (fun k => Some (Z.min (baseDelay * 2 ^ k) maxDelay)) [0; 1; 2; 3; 4]%Z =
    [Some (ms 100); Some (ms 200); Some (ms 400); Some (ms 800);
     Some (ms 1600)] /\
  delays_before_attempts None tr <>
    map (fun k => Some (Z.min (baseDelay * 2 ^ k) maxDelay))
        [0; 1; 2; 3; 4]%Z /\
  last tr (EvSleep 0) = EvSleep (ms 1600).
Proof.
  cbv zeta. repeat split; try (vm_compute; reflexivity).
  vm_compute. discriminate.
Qed.

(** *** Retry exhaustion and the registration handshake *)

Lemma retry_iff (op : M (option error)) (w : world) :
  fst (runState (retry op) w) = None <->
  exists k, k < 5 /\ attempt_result op 0 w k = None.
Proof.
  unfold retry. change (Z.to_nat maxRetries) with 5.
  pose proof (first_success_spec op 5 0%Z w) as Hfs.
  destruct (first_success op 0 w 5) as [k|].
  - destruct Hfs as (Hk & Hok & Hfail).
    rewrite (retry_from_succeeds op 5 0 None w k Hk Hfail Hok).
    split; [|reflexivity]. intros _. now exists k.
  - rewrite (retry_from_exhausts op 5 0 None w Hfs).
    split; [discriminate|]. intros (k & Hk & Hok).
    now apply Hfs in Hok.
Qed.

(** C4, as the code has it.  For any operation, [retry] returns [nil] as
    soon as an attempt returns [nil] (right after that attempt, with no
    further attempt or sleep), and returns an error if and only if the 5
    attempts all fail.  [RegisterDevicePlugin] returns [nil] if and only if
    none of its three retry loops (the connection to its own endpoint, the
    health check, the connection to the kubelet) meets 5 failures in a row
    and the [Register] call succeeds; [Register] is called once at most,
    outside any retry loop. *)
Theorem retry_exhaustion_and_registration (e : env) (name socket : string)
    (op : M (option error)) (w : world) :
  (fst (runState (retry op) w) = None <->
   exists k, k < 5 /\ attempt_result op 0 w k = None) /\
  (forall k,
     k < 5 -> attempt_result op 0 w k = None ->
     (forall j, j < k -> attempt_result op 0 w j <> None) ->
     runState (retry op) w =
     (None, snd (runState op (attempt_world op 0 w k)))) /\
  ((forall k, k < 5 -> attempt_result op 0 w k <> None) ->
   runState (retry op) w =
   (Some (retry_error (attempt_result op 0 w 4)), attempt_world op 0 w 5)) /\
  (let m1 := leading_failures (dial_result e) (dials w) 5 in
   let m2 := leading_failures (check_res e) (checks w) 5 in
   let m3 := leading_failures (dial_result e) (dials w + S m1) 5 in
   fst (runState (RegisterDevicePlugin e name socket) w) = None <->
   m1 < 5 /\ m2 < 5 /\ m3 < 5 /\ register_result e (registers w) = None) /\
  registers (snd (runState (RegisterDevicePlugin e name socket) w)) <=
    S (registers w).
Proof.
  split; [apply retry_iff|]. split; [|split; [|split]].
  - intros k Hk Hok Hfail. unfold retry.
    now apply retry_from_succeeds.
  - intros Hfail. unfold retry. change (Z.to_nat maxRetries) with 5.
    now rewrite (retry_from_exhausts op 5 0 None w Hfail).
  - cbv zeta. rewrite run_RegisterDevicePlugin. cbn [fst].
    unfold registration_result, ready_result, kubelet_result, ready_world.
    cbv zeta. cbn [dials registers].
    pose proof (leading_failures_le (dial_result e) 5 (dials w)) as H1.
    pose proof (leading_failures_le (check_res e) 5 (checks w)) as H2.
    destruct (Nat.eqb_spec (leading_failures (dial_result e) (dials w) 5) 5)
      as [E1|E1]; [split; [discriminate | lia]|].
    destruct (Nat.eqb_spec (leading_failures (check_res e) (checks w) 5) 5)
      as [E2|E2]; [split; [discriminate | lia]|].
    unfold calls_made.
    destruct (Nat.eqb_spec (leading_failures (dial_result e) (dials w) 5) 5)
      as [E1'|_]; [contradiction|].
    pose proof (leading_failures_le (dial_result e) 5
                  (dials w + S (leading_failures (dial_result e)
                                  (dials w) 5))) as H3.
    destruct (Nat.eqb_spec
                (leading_failures (dial_result e)
                   (dials w + S (leading_failures (dial_result e)
                                   (dials w) 5)) 5) 5)
      as [E3|E3]; [split; [discriminate | lia]|].
    destruct (register_result e (registers w)) as [err|].
    + split; [discriminate|]. intros (_ & _ & _ & H). discriminate.
    + split; [|reflexivity]. intros _. repeat split; lia.
  - rewrite run_RegisterDevicePlugin.
    unfold registration_world, kubelet_world, ready_world. cbv zeta.
    destruct (ready_result e w); cbn [snd registers]; [lia|].
    destruct (_ =? 5); lia.
Qed.

(** C4 fails as stated: when the kubelet rejects the one [Register] call,
    [RegisterDevicePlugin] returns an error although no attempt of any
    retry loop has failed (the trace holds no sleep) and [Register] was
    called once. *)
Lemma registration_fails_without_exhaustion :
  let r := runState (RegisterDevicePlugin kubelet_rejects tun_name
                       tun_socket) fresh in
  fst r =
    Some (Errorf "registration failed: %w"
            [ArgErr (Some (Errorf
               "failed to register plugin with kubelet service: %v"
               [ArgErr (Some (ErrValue "rpc error: code = Unavailable"))]))])
  /\
  trace (snd r) =
    [EvLogInfo "Waiting for socket ready";
     EvNewClient tun_socket None;
     EvHealthCheck tun_name SERVING None;
     EvClose tun_socket;
     EvLogInfo "Registering device plugin";
     EvNewClient kubelet_target None;
     EvRegister (mkRegisterRequest "v1beta1" tun_name "tun.sock")
       (Some (ErrValue "rpc error: code = Unavailable"));
     EvClose kubelet_target] /\
  sleeps (trace (snd r)) = 0 /\
  register_calls (trace (snd r)) = 1 /\
  leading_failures (dial_result kubelet_rejects) 0 5 = 0 /\
  leading_failures (check_res kubelet_rejects) 0 5 = 0 /\
  leading_failures (dial_result kubelet_rejects) 1 5 = 0 /\
  ~ fails_only_after_exhaustion kubelet_rejects tun_name tun_socket fresh.
Proof.
  cbv zeta. repeat split; try (vm_compute; reflexivity).
  intros Hclaim.
  assert (Hfails : fst (runState (RegisterDevicePlugin kubelet_rejects
                                    tun_name tun_socket) fresh) <> None)
    by (vm_compute; discriminate).
  destruct (Hclaim Hfails) as [H|[H|H]]; vm_compute in H; discriminate.
Qed.

(** *** The order of the handshake *)

(** C5.  The readiness wait makes no call of [Register].  When it fails,
    [RegisterDevicePlugin] returns its error wrapped in "plugin not ready"
    and stops in the world the wait has left: nothing of the registration
    is attempted.  When it succeeds, the events of the registration come
    after all the events of the wait; so a trace that holds a [Register]
    call is the trace of a successful wait followed by the registration. *)
Theorem registration_only_after_readiness (e : env) (name socket : string)
    (w : world) :
  let ready := runState (waitForPluginReady e name socket) w in
  let reg := runState (RegisterDevicePlugin e name socket) w in
  register_calls (trace (snd ready)) = register_calls (trace w) /\
  registers (snd ready) = registers w /\
  match fst ready with
  | Some err =>
      reg = (Some (Errorf "plugin not ready: %w" [ArgErr (Some err)]),
             snd ready)
  | None =>
      reg = (match fst (runState (registerWithKubelet e name socket)
                          (snd ready)) with
             | Some err =>
                 Some (Errorf "registration failed: %w" [ArgErr (Some err)])
             | None => None
             end,
             snd (runState (registerWithKubelet e name socket)
                    (snd ready))) /\
      trace (snd reg) =
        trace (snd ready) ++ kubelet_events e name socket (snd ready)
  end /\
  (register_calls (trace (snd reg)) <> register_calls (trace w) ->
   fst ready = None) /\
  (registers (snd reg) <> registers w -> fst ready = None).
Proof.
  cbv zeta.
  rewrite run_RegisterDevicePlugin, run_waitForPluginReady. cbn [fst snd].
  assert (Hcalls : register_calls (trace (ready_world e name socket w)) =
                   register_calls (trace w)).
  { unfold ready_world. cbv zeta. cbn [trace].
    rewrite register_calls_app, register_calls_ready. lia. }
  split; [exact Hcalls|]. split; [reflexivity|].
  unfold registration_result, registration_world.
  destruct (ready_result e w) as [err|] eqn:Hready.
  - split; [reflexivity|]. split; intros H; contradiction.
  - rewrite run_registerWithKubelet. cbn [fst snd].
    repeat split; reflexivity.
Qed.

(** *** Panic recovery *)

(** C6, what the code does.  When the handler of an RPC panics, the
    interceptor recovers, the recovery handler logs the panic and increments
    the panic counter once, and it returns [nil]: the RPC ends with a [nil]
    response and no error, so its caller sees the status OK. *)
Theorem recovered_panic_reports_no_error (R : Type) (p : string)
    (w : world) :
  let unary :=
    runState (DevicePluginServer_unary (R := R) (ret (HandlerPanics p))) w in
  let stream :=
    runState (DevicePluginServer_stream (ret (HandlerPanics p))) w in
  fst unary = (None, None) /\
  status_of (snd (fst unary)) = StatusOK /\
  fst stream = None /\
  status_of (fst stream) = StatusOK /\
  PanicCounter (snd unary) = S (PanicCounter w) /\
  PanicCounter (snd stream) = S (PanicCounter w) /\
  trace (snd unary) = trace w ++ [EvLogPanic p] /\
  trace (snd stream) = trace w ++ [EvLogPanic p].
Proof.
  cbv zeta. repeat split.
Qed.


(** *** What the handshake leaves in the trace *)

Lemma leading_failures_spec (res : nat -> option error) :
  forall n b,
    (forall k, k < leading_failures res b n -> res (b + k) <> None) /\
    (leading_failures res b n < n ->
     res (b + leading_failures res b n) = None).
Proof.
  induction n as [|n IH]; intros b; simpl; [split; intros; lia|].
  destruct (res b) as [err|] eqn:Hb.
  - destruct (IH (S b)) as (Hfail & Hok). split.
    + intros [|k] Hk.
      * rewrite Nat.add_0_r, Hb. discriminate.
      * replace (b + S k) with (S b + k) by lia. apply Hfail. lia.
    + intros Hlt.
      replace (b + S (leading_failures res (S b) n))
        with (S b + leading_failures res (S b) n) by lia.
      apply Hok. lia.
  - split; [intros k Hk; lia|]. intros _. now rewrite Nat.add_0_r.
Qed.

Lemma registration_trace (e : env) (name socket : string) (w : world) :
  trace (snd (runState (RegisterDevicePlugin e name socket) w)) =
  trace w ++ registration_events e name socket w.
Proof.
  rewrite run_RegisterDevicePlugin. cbn [snd].
  unfold registration_world, registration_events.
  destruct (ready_result e w).
  - unfold ready_world. cbn [trace]. now rewrite app_nil_r.
  - unfold kubelet_world, ready_world. cbn [trace].
    now rewrite <- app_assoc.
Qed.

Lemma sleep_durations_app (tr1 tr2 : list event) :
  sleep_durations (tr1 ++ tr2) = sleep_durations tr1 ++ sleep_durations tr2.
Proof.
  induction tr1 as [|ev tr1 IH]; simpl; [reflexivity|].
  destruct ev; simpl; now rewrite ?IH.
Qed.

Lemma opened_app (tr1 tr2 : list event) :
  opened (tr1 ++ tr2) = opened tr1 ++ opened tr2.
Proof.
  induction tr1 as [|ev tr1 IH]; simpl; [reflexivity|].
  destruct ev as [| | |tgt [err|]| | | |]; simpl; now rewrite ?IH.
Qed.

Lemma closed_conns_app (tr1 tr2 : list event) :
  closed_conns (tr1 ++ tr2) = closed_conns tr1 ++ closed_conns tr2.
Proof.
  induction tr1 as [|ev tr1 IH]; simpl; [reflexivity|].
  destruct ev; simpl; now rewrite ?IH.
Qed.

Lemma total_sleep_app (tr1 tr2 : list event) :
  total_sleep (tr1 ++ tr2) = (total_sleep tr1 + total_sleep tr2)%Z.
Proof.
  unfold total_sleep. rewrite sleep_durations_app.
  induction (sleep_durations tr1) as [|d ds IH]; simpl; [reflexivity|].
  rewrite IH. lia.
Qed.

(** The sleeps of a loop are the delays of its failed attempts, when the
    attempts themselves are no sleeps. *)
Lemma sleep_durations_loop (ev : nat -> event) :
  (forall i, sleep_durations [ev i] = []) ->
  forall m n b a,
    sleep_durations (loop_events ev b a m n) = delays a m.
Proof.
  intros Hev m n b a. unfold loop_events. rewrite sleep_durations_app.
  replace (sleep_durations (if m =? n then [] else [ev (b + m)]))
    with (@nil Z) by (destruct (m =? n); [reflexivity | now rewrite Hev]).
  rewrite app_nil_r. revert b a.
  induction m as [|m IH]; intros b a; [reflexivity|].
  cbn [failed_attempts delays].
  change (ev b :: ?l) with ([ev b] ++ l).
  rewrite sleep_durations_app, Hev. cbn [app sleep_durations].
  now rewrite IH.
Qed.

(** A loop of dials opens a connection exactly when it is not exhausted,
    and closes none. *)
Lemma opened_dial_loop (e : env) (socket : string) (n b : nat) (a : Z) :
  let m := leading_failures (dial_result e) b n in
  opened (loop_events (dial_event e socket) b a m n) =
    (if m =? n then [] else [socket]) /\
  closed_conns (loop_events (dial_event e socket) b a m n) = [].
Proof.
  cbv zeta.
  destruct (leading_failures_spec (dial_result e) n b) as (Hfail & Hok).
  pose proof (leading_failures_le (dial_result e) n b) as Hle.
  unfold loop_events. rewrite opened_app, closed_conns_app.
  assert (Hfa : forall m b' a',
            (forall k, k < m -> dial_result e (b' + k) <> None) ->
            opened (failed_attempts (dial_event e socket) b' a' m) = [] /\
            closed_conns (failed_attempts (dial_event e socket) b' a' m)
              = []).
  { induction m as [|m IH]; intros b' a' H; [split; reflexivity|].
    cbn [failed_attempts]. unfold dial_event at 1 3.
    pose proof (H 0 ltac:(lia)) as H0. rewrite Nat.add_0_r in H0.
    destruct (dial_result e b') as [err|]; [|congruence].
    cbn [opened closed_conns]. apply IH.
    intros k Hk. replace (S b' + k) with (b' + S k) by lia.
    apply H. lia. }
  destruct (Hfa _ b a Hfail) as (-> & ->). cbn [app].
  destruct (Nat.eqb_spec (leading_failures (dial_result e) b n) n) as [E|E];
    [split; reflexivity|].
  unfold dial_event. rewrite Hok by lia. split; reflexivity.
Qed.

Lemma opened_check_loop (e : env) (name : string) (m n b : nat) (a : Z) :
  opened (loop_events (check_event e name) b a m n) = [] /\
  closed_conns (loop_events (check_event e name) b a m n) = [].
Proof.
  unfold loop_events. rewrite opened_app, closed_conns_app.
  replace (opened (if m =? n then [] else [check_event e name (b + m)]))
    with (@nil string) by (destruct (m =? n); reflexivity).
  replace (closed_conns
             (if m =? n then [] else [check_event e name (b + m)]))
    with (@nil string) by (destruct (m =? n); reflexivity).
  rewrite !app_nil_r. revert b a.
  induction m as [|m IH]; intros b a; [split; reflexivity|].
  cbn [failed_attempts]. unfold check_event at 1 3.
  cbn [opened closed_conns]. apply IH.
Qed.

Lemma delays_five :
  delays 0 5 = [ms 100; ms 200; ms 400; ms 800; ms 1600].
Proof. vm_compute. reflexivity. Qed.

Lemma delays_bounds (m : nat) :
  m <= 5 ->
  (0 <= delay_sum m <= ms 3100)%Z /\
  (m < 5 -> (delay_sum m <= ms 1500)%Z) /\
  (m = 5 -> delay_sum m = ms 3100) /\
  Forall (fun d => (ms 100 <= d <= ms 1600)%Z) (delays 0 m).
Proof.
  intros Hm.
  assert (Hfirst : delays 0 m = firstn m (delays 0 5)).
  { do 5 (destruct m as [|m]; [reflexivity|]).
    destruct m as [|m]; [reflexivity | lia]. }
  unfold delay_sum. rewrite Hfirst, delays_five.
  unfold ms, Millisecond.
  do 5 (destruct m as [|m];
        [cbn [firstn fold_right];
         repeat split; try lia; repeat (constructor; [lia|]); constructor|]).
  destruct m as [|m]; [|lia].
  cbn [firstn fold_right].
  repeat split; try lia; repeat (constructor; [lia|]); constructor.
Qed.

Lemma ready_events_summary (e : env) (name socket : string) (w : world) :
  let m1 := leading_failures (dial_result e) (dials w) 5 in
  let m2 := leading_failures (check_res e) (checks w) 5 in
  opened (ready_events e name socket w) =
    (if m1 =? 5 then [] else [socket]) /\
  closed_conns (ready_events e name socket w) =
    (if m1 =? 5 then [] else [socket]) /\
  sleep_durations (ready_events e name socket w) =
    delays 0 m1 ++ (if m1 =? 5 then [] else delays 0 m2).
Proof.
  cbv zeta. unfold ready_events. cbv zeta.
  cbn [opened closed_conns sleep_durations].
  rewrite opened_app, closed_conns_app, sleep_durations_app.
  destruct (opened_dial_loop e socket 5 (dials w) 0) as (-> & ->).
  rewrite sleep_durations_loop by reflexivity.
  destruct (leading_failures (dial_result e) (dials w) 5 =? 5).
  - repeat split; now rewrite ?app_nil_r.
  - rewrite opened_app, closed_conns_app, sleep_durations_app.
    destruct (opened_check_loop e name
                (leading_failures (check_res e) (checks w) 5) 5
                (checks w) 0) as (-> & ->).
    rewrite sleep_durations_loop by reflexivity.
    cbn [opened closed_conns sleep_durations app].
    repeat split. now rewrite app_nil_r.
Qed.

Lemma kubelet_events_summary (e : env) (name socket : string) (w : world) :
  let m3 := leading_failures (dial_result e) (dials w) 5 in
  opened (kubelet_events e name socket w) =
    (if m3 =? 5 then [] else [kubelet_target]) /\
  closed_conns (kubelet_events e name socket w) =
    (if m3 =? 5 then [] else [kubelet_target]) /\
  sleep_durations (kubelet_events e name socket w) = delays 0 m3.
Proof.
  cbv zeta. unfold kubelet_events. cbv zeta.
  cbn [opened closed_conns sleep_durations].
  rewrite opened_app, closed_conns_app, sleep_durations_app.
  destruct (opened_dial_loop e kubelet_target 5 (dials w) 0) as (-> & ->).
  rewrite sleep_durations_loop by reflexivity.
  destruct (leading_failures (dial_result e) (dials w) 5 =? 5);
    cbn [opened closed_conns sleep_durations app];
    repeat split; now rewrite ?app_nil_r.
Qed.

(** X3.  [connectGRPCWithRetry] returns either a connection to the socket
    it was given and no error, or no connection and an error, never both
    and never neither; it calls [grpc.NewClient] at least once and at most
    5 times, 5 times when it fails; and it makes no health check and no
    registration. *)
Theorem connect_returns_connection_or_error (e : env) (socket : string)
    (w : world) :
  let r := runState (connectGRPCWithRetry e socket) w in
  match fst r with
  | (Some c, None) => target c = socket /\ dials (snd r) <= dials w + 5
  | (None, Some _) => dials (snd r) = dials w + 5
  | _ => False
  end /\
  dials w < dials (snd r) /\
  checks (snd r) = checks w /\
  registers (snd r) = registers w /\
  PanicCounter (snd r) = PanicCounter w.
Proof.
  cbv zeta. rewrite run_connectGRPCWithRetry. cbv zeta. world_simpl.
  pose proof (leading_failures_le (dial_result e) 5 (dials w)) as Hle.
  unfold loop_result, calls_made.
  destruct (Nat.eqb_spec (leading_failures (dial_result e) (dials w) 5) 5);
    repeat split; try reflexivity; lia.
Qed.

(** X4.  [RegisterDevicePlugin] closes every connection it opens: the
    connections closed are, in order, the connections opened, whatever the
    environment answers and wherever the handshake stops.  It opens two
    connections at most, the first to the plugin's socket and the second to
    the kubelet's. *)
Theorem handshake_closes_its_connections (e : env) (name socket : string)
    (w : world) :
  let evs := registration_events e name socket w in
  trace (snd (runState (RegisterDevicePlugin e name socket) w)) =
    trace w ++ evs /\
  closed_conns evs = opened evs /\
  (opened evs = [] \/ opened evs = [socket] \/
   opened evs = [socket; kubelet_target]).
Proof.
  cbv zeta. split; [apply registration_trace|].
  unfold registration_events.
  rewrite opened_app, closed_conns_app.
  destruct (ready_events_summary e name socket w) as (-> & -> & _).
  unfold ready_result. cbv zeta.
  destruct (leading_failures (dial_result e) (dials w) 5 =? 5);
    [split; [reflexivity | now left]|].
  destruct (leading_failures (check_res e) (checks w) 5 =? 5);
    [split; [reflexivity | right; now left]|].
  destruct (kubelet_events_summary e name socket
              (ready_world e name socket w)) as (-> & -> & _).
  destruct (_ =? 5); split; try reflexivity; auto.
Qed.

(** X5.  Whatever the environment answers, the sleeps of
    [RegisterDevicePlugin] add up to 6.1s at most, and each of them lasts
    between 100ms and 1.6s: with 5 attempts the cap of 5s is never reached.
    A call of [connectGRPCWithRetry] that fails has slept 3.1s in all. *)
Theorem handshake_sleeps_bounded (e : env) (name socket : string)
    (w : world) :
  let evs := registration_events e name socket w in
  let c := runState (connectGRPCWithRetry e socket) w in
  let m := leading_failures (dial_result e) (dials w) 5 in
  trace (snd (runState (RegisterDevicePlugin e name socket) w)) =
    trace w ++ evs /\
  (0 <= total_sleep evs <= ms 6100)%Z /\
  Forall (fun d => (ms 100 <= d <= ms 1600)%Z) (sleep_durations evs) /\
  Forall (fun d => (d < maxDelay)%Z) (sleep_durations evs) /\
  trace (snd c) = trace w ++ loop_events (dial_event e socket) (dials w) 0 m 5
  /\
  match snd (fst c) with
  | Some _ =>
      total_sleep (loop_events (dial_event e socket) (dials w) 0 m 5) =
      ms 3100
  | None =>
      (total_sleep (loop_events (dial_event e socket) (dials w) 0 m 5) <=
       ms 1500)%Z
  end.
Proof.
  cbv zeta. split; [apply registration_trace|].
  rewrite run_connectGRPCWithRetry. cbv zeta. world_simpl.
  pose proof (leading_failures_le (dial_result e) 5 (dials w)) as H1.
  pose proof (leading_failures_le (check_res e) 5 (checks w)) as H2.
  pose proof (leading_failures_le (dial_result e) 5
                (dials (ready_world e name socket w))) as H3.
  destruct (delays_bounds _ H1) as (B1 & L1 & E1 & F1).
  destruct (delays_bounds _ H2) as (B2 & L2 & E2 & F2).
  destruct (delays_bounds _ H3) as (B3 & L3 & E3 & F3).
  assert (Hsl : sleep_durations (registration_events e name socket w) =
                delays 0 (leading_failures (dial_result e) (dials w) 5) ++
                (if leading_failures (dial_result e) (dials w) 5 =? 5
                 then []
                 else delays 0 (leading_failures (check_res e) (checks w) 5)
                      ++ (if leading_failures (check_res e) (checks w) 5
                             =? 5
                          then []
                          else delays 0
                                 (leading_failures (dial_result e)
                                    (dials (ready_world e name socket w))
                                    5)))).
  { unfold registration_events. rewrite sleep_durations_app.
    destruct (ready_events_summary e name socket w) as (_ & _ & ->).
    unfold ready_result. cbv zeta.
    destruct (leading_failures (dial_result e) (dials w) 5 =? 5);
      [now rewrite !app_nil_r|].
    destruct (leading_failures (check_res e) (checks w) 5 =? 5);
      [now rewrite !app_nil_r|].
    destruct (kubelet_events_summary e name socket
                (ready_world e name socket w)) as (_ & _ & ->).
    now rewrite <- app_assoc. }
  assert (Hall : Forall (fun d => (ms 100 <= d <= ms 1600)%Z)
                   (sleep_durations (registration_events e name socket w))).
  { rewrite Hsl. apply Forall_app. split; [exact F1|].
    destruct (_ =? 5); [constructor|].
    apply Forall_app. split; [exact F2|].
    destruct (_ =? 5); [constructor | exact F3]. }
  assert (Hsum : forall l1 l2,
            fold_right Z.add 0%Z (l1 ++ l2) =
            (fold_right Z.add 0 l1 + fold_right Z.add 0 l2)%Z).
  { induction l1 as [|d l1 IH]; intros l2; simpl; [reflexivity|].
    rewrite IH. lia. }
  split; [|split; [exact Hall|split; [|split; [reflexivity|]]]].
  - unfold total_sleep. rewrite Hsl, Hsum.
    fold (delay_sum (leading_failures (dial_result e) (dials w) 5)).
    destruct (Nat.eqb_spec (leading_failures (dial_result e) (dials w) 5) 5)
      as [M1|M1]; [cbn [fold_right]; unfold ms, Millisecond in *; lia|].
    rewrite Hsum.
    fold (delay_sum (leading_failures (check_res e) (checks w) 5)).
    destruct (Nat.eqb_spec (leading_failures (check_res e) (checks w) 5) 5)
      as [M2|M2]; [cbn [fold_right]|].
    + specialize (L1 ltac:(lia)). unfold ms, Millisecond in *. lia.
    + fold (delay_sum (leading_failures (dial_result e)
                         (dials (ready_world e name socket w)) 5)).
      specialize (L1 ltac:(lia)). specialize (L2 ltac:(lia)).
      unfold ms, Millisecond in *. lia.
  - eapply Forall_impl; [|exact Hall].
    intros d Hd. unfold maxDelay, Second, ms, Millisecond in *. lia.
  - unfold total_sleep. rewrite sleep_durations_loop by reflexivity.
    fold (delay_sum (leading_failures (dial_result e) (dials w) 5)).
    unfold loop_result.
    destruct (Nat.eqb_spec (leading_failures (dial_result e) (dials w) 5) 5)
      as [M1|M1]; [now apply E1 | apply L1; lia].
Qed.

(** *** The endpoint registered with the kubelet *)










(** *** The panic counter over a sequence of RPCs *)



(** *** What the readiness wait takes for ready *)

Lemma leading_failures_lt (res : nat -> option error) (n b : nat) :
  leading_failures res b n < n <-> exists k, k < n /\ res (b + k) = None.
Proof.
  destruct (leading_failures_spec res n b) as (Hfail & Hok).
  pose proof (leading_failures_le res n b) as Hle.
  split.
  - intros Hlt. exists (leading_failures res b n). split; auto.
  - intros (k & Hk & Hres).
    destruct (Nat.eq_dec (leading_failures res b n) n) as [E|E]; [|lia].
    exfalso. apply (Hfail k); [lia | exact Hres].
Qed.

Lemma check_res_ok (e : env) (i : nat) :
  check_res e i = None <-> check_result e i = (SERVING, None).
Proof.
  unfold check_res, check_error.
  destruct (check_result e i) as [st [err|]]; cbn [fst snd].
  - split; discriminate.
  - destruct st; cbn [is_SERVING]; split; try discriminate; reflexivity.
Qed.

(** X13.  [waitForPluginReady] returns [nil] exactly when it gets a
    connection and one of its first five health checks answers SERVING
    with no error; an answer with another status counts as a failure like
    an error.  It stops checking at the first such answer, makes five
    checks at most, and none when it gets no connection. *)
Theorem readiness_needs_a_serving_answer (e : env) (name socket : string)
    (w : world) :
  let r := runState (waitForPluginReady e name socket) w in
  let m1 := leading_failures (dial_result e) (dials w) 5 in
  let m2 := leading_failures (check_res e) (checks w) 5 in
  (fst r = None <->
   m1 < 5 /\
   exists k, k < 5 /\ check_result e (checks w + k) = (SERVING, None)) /\
  checks (snd r) =
    (if m1 =? 5 then checks w
     else if m2 =? 5 then checks w + 5 else checks w + S m2) /\
  checks (snd r) <= checks w + 5 /\
  (forall k, k < m2 -> check_result e (checks w + k) <> (SERVING, None)) /\
  (m2 < 5 -> check_result e (checks w + m2) = (SERVING, None)) /\
  registers (snd r) = registers w.
Proof.
  cbv zeta. rewrite run_waitForPluginReady. cbn [fst snd].
  unfold ready_result, ready_world, calls_made. cbv zeta. world_simpl.
  pose proof (leading_failures_le (dial_result e) 5 (dials w)) as H1.
  pose proof (leading_failures_le (check_res e) 5 (checks w)) as H2.
  destruct (leading_failures_spec (check_res e) 5 (checks w))
    as (Hfail & Hok).
  pose proof (leading_failures_lt (check_res e) 5 (checks w)) as Hlt.
  split; [|split; [|split; [|split; [|split]]]].
  - destruct (Nat.eqb_spec (leading_failures (dial_result e) (dials w) 5) 5)
      as [E1|E1]; [split; [discriminate | lia]|].
    destruct (Nat.eqb_spec (leading_failures (check_res e) (checks w) 5) 5)
      as [E2|E2].
    + split; [discriminate|]. intros (_ & k & Hk & Hres).
      apply check_res_ok in Hres.
      assert (leading_failures (check_res e) (checks w) 5 < 5)
        by (apply Hlt; now exists k).
      lia.
    + split; [|reflexivity]. intros _. split; [lia|].
      destruct (proj1 Hlt ltac:(lia)) as (k & Hk & Hres).
      exists k. split; [exact Hk | now apply check_res_ok].
  - destruct (_ =? 5); [reflexivity|]. destruct (_ =? 5); reflexivity.
  - destruct (_ =? 5); [lia|].
    destruct (Nat.eqb_spec (leading_failures (check_res e) (checks w) 5) 5);
      lia.
  - intros k Hk Hres. apply check_res_ok in Hres.
    now apply (Hfail k).
  - intros Hm. apply check_res_ok. now apply Hok.
  - reflexivity.
Qed.

End plugin_props.

(** ** Shutdown and the exit code *)

Module tunmain_props.
Import tunmain.
Import tunmain_defs.

Lemma errgroup_Wait_nil (results : list (option error)) :
  errgroup_Wait results = None -> forall res, In res results -> res = None.
Proof.
  induction results as [|r results IH]; simpl; [contradiction|].
  destruct r as [err|]; [discriminate|].
  intros H res [<-|Hin]; auto.
Qed.

Lemma join_In (r : run_env) :
  forall (ts : list task) (results : list (option error)) (t : task),
    join r ts = Returned results -> In t ts ->
    exists res, run_task r t = Returned res /\ In res results.
Proof.
  induction ts as [|t' ts IH]; intros results t Hjoin Hin;
    [contradiction|].
  simpl in Hjoin.
  destruct (run_task r t') as [res'| |msg] eqn:Ht';
    destruct (join r ts) as [rest| |msg'] eqn:Hts;
    try discriminate.
  injection Hjoin as <-.
  destruct Hin as [<-|Hin].
  - exists res'. split; [exact Ht' | now left].
  - destruct (IH rest t eq_refl Hin) as (res & Hres & Hin').
    exists res. split; [exact Hres | now right].
Qed.

(** The shutdown sequence by itself: a graceful stop gives the result of
    the stop ([nil] for gRPC, the result of [Shutdown] for HTTP), a forced
    stop of the gRPC server gives [nil] and a forced close of the HTTP
    server gives the result of [Close]. *)
Lemma shutdown_results (sd : shutdown_env) :
  snd (shutdown_grpc sd) = None /\
  snd (shutdown_http sd) =
    match http_select sd with
    | StopFirst => http_Shutdown sd
    | DeadlineFirst => http_Close sd
    end /\
  (grpc_select sd = DeadlineFirst -> In EvStop (fst (shutdown_grpc sd))) /\
  (http_select sd = DeadlineFirst -> In EvClose (fst (shutdown_http sd))) /\
  shutdown sd true true =
    if ctx_done sd then Returned (snd (shutdown_http sd)) else Blocked.
Proof.
  unfold shutdown, shutdown_grpc, shutdown_http.
  destruct (grpc_select sd), (http_select sd), (ctx_done sd),
    (http_returns_first sd); simpl; repeat split;
    try discriminate; auto 10;
    try (destruct (http_Close sd); reflexivity);
    try (destruct (http_Shutdown sd); reflexivity).
Qed.

Lemma run_never_returns_nil (r : run_env) :
  In HttpTask (return_order r) -> run r <> Returned None.
Proof.
  intros Hin Hrun. unfold run in Hrun.
  destruct (join r (return_order r)) as [results| |msg] eqn:Hjoin;
    try discriminate.
  injection Hrun as Hwait.
  destruct (join_In r _ _ HttpTask Hjoin Hin) as (res & Hres & Hin').
  apply (errgroup_Wait_nil _ Hwait) in Hin'. subst res.
  simpl in Hres. destruct (http_listener r); discriminate.
Qed.

(** C8, what the code does.  After a shutdown in which both servers stop
    gracefully, and after one in which both are forced closed and [Close]
    succeeds, the shutdown sequence returns [nil]; but the task that serves
    HTTP returns [http.ErrServerClosed], [run] returns it, and the process
    exits with code 1.  Whenever the process exits and the HTTP task is
    among the tasks that returned, the exit code is 1. *)
Theorem shutdown_exits_nonzero (r : run_env) :
  shutdown (sd clean_shutdown) true true = Returned None /\
  run clean_shutdown = Returned (Some ErrServerClosed) /\
  main clean_shutdown = Returned 1%Z /\
  shutdown (sd forced_shutdown) true true = Returned None /\
  run forced_shutdown = Returned (Some ErrServerClosed) /\
  main forced_shutdown = Returned 1%Z /\
  (In HttpTask (return_order r) ->
   forall code, main r = Returned code -> code = 1%Z).
Proof.
  repeat split.
  intros Hin code Hmain.
  pose proof (run_never_returns_nil r Hin) as Hrun.
  unfold main in Hmain.
  destruct (run r) as [[err|]| |msg]; try discriminate; try congruence.
Qed.


(** *** The shutdown sequence by itself *)


(** *** The listener and its cleanup *)


End tunmain_props.

(** ** The release script *)

Module release_props.
Import release.
Import release_defs.
Local Open Scope nat_scope.

Lemma rel_run_bind {A B : Type} (c : M A) (f : A -> M B) (w : world) :
  runState (bind c f) w =
  runState (f (fst (runState c w))) (snd (runState c w)).
Proof. simpl. now destruct (runState c w). Qed.

Lemma rel_run_ret {A : Type} (a : A) (w : world) : runState (ret a) w = (a, w).
Proof. reflexivity. Qed.

Lemma rel_run_emit (ev : event) (w : world) :
  runState (emit ev) w = (tt, mkWorld (runs w) (trace w ++ [ev])).
Proof. reflexivity. Qed.

Lemma run_gitCmd (e : env) (args : list string) (w : world) :
  runState (gitCmd e args) w =
  (run_result e (runs w),
   mkWorld (S (runs w))
     (trace w ++ [EvRun "git" args (run_result e (runs w))])).
Proof. reflexivity. Qed.

Lemma all_succeed_S (f : nat -> option error) (b n : nat) :
  all_succeed f b (S n) <-> f b = None /\ all_succeed f (S b) n.
Proof.
  unfold all_succeed. split.
  - intros H. split.
    + rewrite <- (Nat.add_0_r b). apply H. lia.
    + intros k Hk. replace (S b + k) with (b + S k) by lia. apply H. lia.
  - intros (H0 & H) [|k] Hk.
    + now rewrite Nat.add_0_r.
    + replace (b + S k) with (S b + k) by lia. apply H. lia.
Qed.

Lemma run_seq_spec (f : nat -> option error) :
  forall (cmds : list (list string)) (b : nat),
    writes (fst (run_seq f b cmds)) = [] /\
    fatals (fst (run_seq f b cmds)) = [] /\
    commands (fst (run_seq f b cmds)) =
      firstn (List.length (fst (run_seq f b cmds))) cmds /\
    match snd (run_seq f b cmds) with
    | None =>
        List.length (fst (run_seq f b cmds)) = List.length cmds /\
        failures (fst (run_seq f b cmds)) = [] /\
        all_succeed f b (List.length cmds)
    | Some err =>
        exists j,
          j < List.length cmds /\
          List.length (fst (run_seq f b cmds)) = S j /\
          all_succeed f b j /\
          f (b + j) = Some err /\
          failures (fst (run_seq f b cmds)) = [nth j cmds []]
    end.
Proof.
  induction cmds as [|c cs IH]; intros b; cbn [run_seq].
  - cbn. repeat split. intros k Hk. lia.
  - destruct (f b) as [err|] eqn:Hb; cbn [fst snd].
    + repeat split. exists 0. cbn. rewrite Nat.add_0_r.
      repeat split; try lia; try assumption. intros k Hk. lia.
    + destruct (IH (S b)) as (Hw & Hf & Hc & Hres).
      cbn [writes fatals commands failures List.length firstn].
      rewrite <- Hc. repeat split; try assumption.
      destruct (snd (run_seq f (S b) cs)) as [err|].
      * destruct Hres as (j & Hj & Hlen & Hall & Herr & Hfail).
        exists (S j). cbn [nth]. rewrite Hlen.
        replace (b + S j) with (S b + j) by lia.
        repeat split; try lia; try assumption.
        now apply all_succeed_S.
      * destruct Hres as (Hlen & Hfail & Hall).
        rewrite Hlen. repeat split; try assumption.
        now apply all_succeed_S.
Qed.

Lemma run_release (e : env) (version fullVersion : string) (w : world) :
  let rs := run_seq (run_result e) (runs w)
              (release_commands version fullVersion) in
  runState (release e version fullVersion) w =
  (snd rs, mkWorld (List.length (fst rs) + runs w) (trace w ++ fst rs)).
Proof.
  cbv zeta. unfold release, release_commands. cbn [run_seq].
  repeat (rewrite rel_run_bind, run_gitCmd; cbn [fst snd runs trace];
          match goal with
          | |- context [match run_result e ?k with _ => _ end] =>
              destruct (run_result e k);
              [rewrite rel_run_ret; cbn [fst snd List.length Nat.add];
               now rewrite <- ?app_assoc|]
          end).
  rewrite run_gitCmd. cbn [fst snd runs trace].
  destruct (run_result e _);
    cbn [fst snd List.length Nat.add]; now rewrite <- ?app_assoc.
Qed.

Lemma run_branchExists (e : env) (branchName : string) (w : world) :
  runState (branchExists e branchName) w =
  (strings_Contains (branch_list e branchName) branchName,
   mkWorld (runs w)
     (trace w ++ [EvBranchList branchName (branch_list e branchName)])).
Proof. reflexivity. Qed.

Lemma run_branchPrep (e : env) (version fullVersion : string) (w : world) :
  let branch := ("release-" ++ version)%string in
  let ps := run_seq (run_result e) (runs w)
              (prep_commands
                 (strings_Contains (branch_list e branch) branch)
                 version fullVersion) in
  runState (branchPrep e version fullVersion) w =
  (snd ps,
   mkWorld (List.length (fst ps) + runs w)
     (trace w ++ EvBranchList branch (branch_list e branch) :: fst ps)).
Proof.
  cbv zeta. unfold branchPrep, prep_commands. cbv zeta. cbn [run_seq].
  rewrite rel_run_bind, run_branchExists. cbn [fst snd].
  rewrite rel_run_bind.
  destruct (strings_Contains _ _);
    unfold switchToBranch, createBranch;
    rewrite run_gitCmd; cbn [fst snd runs trace];
    (destruct (run_result e (runs w));
     [rewrite rel_run_ret; cbn [fst snd List.length Nat.add];
      now rewrite <- ?app_assoc|]);
    rewrite run_gitCmd; cbn [fst snd runs trace];
    destruct (run_result e _);
    cbn [fst snd List.length Nat.add]; now rewrite <- ?app_assoc.
Qed.

Lemma commands_app (tr1 tr2 : list event) :
  commands (tr1 ++ tr2) = commands tr1 ++ commands tr2.
Proof.
  induction tr1 as [|ev tr1 IH]; simpl; [reflexivity|].
  destruct ev; simpl; now rewrite ?IH.
Qed.

Lemma failures_app (tr1 tr2 : list event) :
  failures (tr1 ++ tr2) = failures tr1 ++ failures tr2.
Proof.
  induction tr1 as [|ev tr1 IH]; simpl; [reflexivity|].
  destruct ev as [n a [err|]| | |]; simpl; now rewrite ?IH.
Qed.

Lemma writes_app (tr1 tr2 : list event) :
  writes (tr1 ++ tr2) = writes tr1 ++ writes tr2.
Proof.
  induction tr1 as [|ev tr1 IH]; simpl; [reflexivity|].
  destruct ev; simpl; now rewrite ?IH.
Qed.

Lemma fatals_app (tr1 tr2 : list event) :
  fatals (tr1 ++ tr2) = fatals tr1 ++ fatals tr2.
Proof.
  induction tr1 as [|ev tr1 IH]; simpl; [reflexivity|].
  destruct ev; simpl; now rewrite ?IH.
Qed.

(** X10.  [release] runs its five git commands (add, commit, push of the
    release branch, tag, push of the tags) in this order and stops at the
    first that fails: the commands run are a prefix of the five, every one
    but the last run has succeeded, and the error returned is the error of
    the last one run.  It returns [nil] exactly when all five succeed. *)
Theorem release_stops_at_first_failure (e : env)
    (version fullVersion : string) (w : world) :
  let r := runState (release e version fullVersion) w in
  let cmds := release_commands version fullVersion in
  exists evs,
    trace (snd r) = trace w ++ evs /\
    runs (snd r) = List.length evs + runs w /\
    commands evs = firstn (List.length evs) cmds /\
    1 <= List.length evs <= 5 /\
    all_succeed (run_result e) (runs w) (List.length evs - 1) /\
    fst r = run_result e (runs w + (List.length evs - 1)) /\
    (fst r = None <-> all_succeed (run_result e) (runs w) 5) /\
    match fst r with
    | None => commands evs = cmds /\ failures evs = []
    | Some _ => failures evs = [nth (List.length evs - 1) cmds []]
    end.
Proof.
  cbv zeta. rewrite run_release. cbv zeta. cbn [fst snd runs trace].
  destruct (run_seq_spec (run_result e)
              (release_commands version fullVersion) (runs w))
    as (_ & _ & Hc & Hres).
  exists (fst (run_seq (run_result e) (runs w)
                 (release_commands version fullVersion))).
  split; [reflexivity|]. split; [reflexivity|]. split; [exact Hc|].
  destruct (snd (run_seq (run_result e) (runs w)
                   (release_commands version fullVersion))) as [err|].
  - destruct Hres as (j & Hj & Hlen & Hall & Herr & Hfail).
    cbn [List.length release_commands] in Hj.
    rewrite Hlen. replace (S j - 1) with j by lia.
    split; [lia|]. split; [exact Hall|]. split; [now symmetry|].
    split; [|exact Hfail].
    split; [discriminate|].
    intros H5. rewrite (H5 j Hj) in Herr. discriminate.
  - destruct Hres as (Hlen & Hfail & Hall).
    cbn [List.length release_commands] in Hlen, Hall.
    rewrite Hlen in *. cbn [Nat.sub].
    split; [lia|]. split; [intros k Hk; apply Hall; lia|].
    split; [symmetry; apply Hall; lia|].
    split; [split; auto|]. split; [|exact Hfail].
    now rewrite Hc, firstn_all2 by (cbn; lia).
Qed.

(** X11.  [branchPrep] first lists the branch release-<version>; it
    switches to the branch when the listing contains its name and creates
    it otherwise, in particular when the listing is empty (the error of
    the listing is dropped); the merge of origin/main runs only after that
    checkout has succeeded; and [branchPrep] returns [nil] exactly when both
    commands succeed. *)
Theorem branchPrep_checks_out_then_merges (e : env)
    (version fullVersion : string) (w : world) :
  let r := runState (branchPrep e version fullVersion) w in
  let branch := ("release-" ++ version)%string in
  let found := strings_Contains (branch_list e branch) branch in
  let cmds := prep_commands found version fullVersion in
  exists evs,
    trace (snd r) =
      trace w ++ EvBranchList branch (branch_list e branch) :: evs /\
    commands evs = firstn (List.length evs) cmds /\
    hd_error (commands evs) =
      Some (if found then ["checkout"; branch]
            else ["checkout"; "-b"; branch]) /\
    1 <= List.length evs <= 2 /\
    (List.length evs = 2 -> run_result e (runs w) = None) /\
    (fst r = None <-> all_succeed (run_result e) (runs w) 2) /\
    fst r = run_result e (runs w + (List.length evs - 1)) /\
    (branch_list e branch = "" -> found = false).
Proof.
  cbv zeta. rewrite run_branchPrep. cbv zeta. cbn [fst snd runs trace].
  set (found := strings_Contains _ _).
  destruct (run_seq_spec (run_result e)
              (prep_commands found version fullVersion) (runs w))
    as (_ & _ & Hc & Hres).
  exists (fst (run_seq (run_result e) (runs w)
                 (prep_commands found version fullVersion))).
  split; [reflexivity|]. split; [exact Hc|].
  assert (Hempty : branch_list e ("release-" ++ version)%string = "" ->
                   found = false).
  { intros H. unfold found. rewrite H. reflexivity. }
  destruct (snd (run_seq (run_result e) (runs w)
                   (prep_commands found version fullVersion))) as [err|].
  - destruct Hres as (j & Hj & Hlen & Hall & Herr & Hfail).
    cbn [List.length prep_commands] in Hj.
    rewrite Hc, Hlen. replace (S j - 1) with j by lia.
    split; [destruct found; reflexivity|]. split; [lia|].
    split.
    { intros H2. rewrite <- (Nat.add_0_r (runs w)). apply Hall. lia. }
    split; [|split; [now symmetry | exact Hempty]].
    split; [discriminate|].
    intros H2. rewrite (H2 j Hj) in Herr. discriminate.
  - destruct Hres as (Hlen & Hfail & Hall).
    cbn [List.length prep_commands] in Hlen, Hall.
    rewrite Hc, Hlen. cbn [Nat.sub].
    split; [destruct found; reflexivity|]. split; [lia|].
    split; [intros _; rewrite <- (Nat.add_0_r (runs w)); apply Hall; lia|].
    split; [split; auto|]. split; [|exact Hempty].
    symmetry. apply Hall. lia.
Qed.

Lemma run_Fatalf (msg : string) (err : error) (w : world) :
  runState (Fatalf msg err) w =
  (1%Z, mkWorld (runs w) (trace w ++ [EvFatal msg err])).
Proof. reflexivity. Qed.

Lemma run_writeKustomization (e : env) (k : kustomization) (path : string)
    (w : world) :
  runState (writeKustomization e k path) w =
  match yaml_Marshal e k with
  | inr err =>
      (Some (Errorf "failed to marshal kustomization: %w"
               [ArgErr (Some err)]), w)
  | inl content =>
      (os_WriteFile e,
       mkWorld (runs w)
         (trace w ++ [EvWriteFile path content (os_WriteFile e)]))
  end.
Proof.
  unfold writeKustomization. now destruct (yaml_Marshal e k).
Qed.

(** X12.  The release script does nothing to the repository before the
    version flag parses, writes the kustomization only after both commands
    of the branch preparation have succeeded, and runs the commands of the
    release (add, commit, push, tag, push of the tags) only after the
    kustomization has been marshalled and written.  It stops at the first
    step that fails, logs exactly one fatal message and exits with code 1;
    it exits with code 0 exactly when the version parses, the seven git
    commands succeed and the file is written, and then the commands are
    those of the branch preparation followed by those of the release. *)
Theorem release_script_pipeline (e : env)
    (versionFlag imageFlag newImageFlag : string) (w : world) :
  let r := runState (main e versionFlag imageFlag newImageFlag) w in
  let k := createKustomization ["./config/plugin"; "./config/rbac"]
             imageFlag newImageFlag versionFlag in
  exists evs,
    trace (snd r) = trace w ++ evs /\
    (fst r = 0%Z /\ fatals evs = [] \/
     fst r = 1%Z /\ List.length (fatals evs) = 1) /\
    (fst r = 0%Z <->
     exists v content,
       version_of e versionFlag = Some v /\
       all_succeed (run_result e) (runs w) 7 /\
       yaml_Marshal e k = inl content /\ os_WriteFile e = None) /\
    (version_of e versionFlag = None ->
     commands evs = [] /\ writes evs = []) /\
    (writes evs = [] \/
     exists content,
       writes evs = [("./kustomization.yaml", content)] /\
       yaml_Marshal e k = inl content /\
       all_succeed (run_result e) (runs w) 2) /\
    (2 < List.length (commands evs) ->
     os_WriteFile e = None /\ writes evs <> []) /\
    List.length (failures evs) <= 1 /\
    (fst r = 0%Z ->
     exists v,
       version_of e versionFlag = Some v /\
       commands evs =
         prep_commands
           (strings_Contains (branch_list e ("release-" ++ v)%string)
              ("release-" ++ v)%string) v versionFlag ++
         release_commands v versionFlag).
Proof.
  cbv zeta. unfold main, parseVersion, version_of.
  destruct (semver_NewVersion e (TrimPrefix_v versionFlag))
    as [[major minor]|perr].
  2:{ rewrite run_Fatalf. cbn [fst snd trace]. eexists.
      split; [reflexivity|]. cbn.
      split; [right; split; reflexivity|].
      split; [split; [discriminate | intros (v & c & H & _); discriminate]|].
      split; [split; reflexivity|].
      split; [now left|].
      split; [intros H; lia|]. split; [lia | discriminate]. }
  set (v := (format_uint major ++ "." ++ format_uint minor)%string).
  set (found := strings_Contains (branch_list e ("release-" ++ v)%string)
                  ("release-" ++ v)%string).
  rewrite rel_run_bind, run_branchPrep. cbv zeta. cbn [fst snd].
  fold found.
  destruct (run_seq_spec (run_result e) (prep_commands found v versionFlag)
              (runs w)) as (Hpw & Hpf & Hpc & Hpres).
  set (ps := run_seq (run_result e) (runs w)
               (prep_commands found v versionFlag)) in *.
  destruct (snd ps) as [err|].
  { destruct Hpres as (j & Hj & Hlen & Hall & Herr & Hfail).
    cbn [List.length prep_commands] in Hj.
    rewrite run_Fatalf. cbn [fst snd trace]. eexists.
    split; [rewrite <- app_assoc; reflexivity|].
    cbn [app]. rewrite !app_comm_cons.
    rewrite fatals_app, writes_app, commands_app, failures_app.
    cbn [fatals writes commands failures].
    rewrite Hpw, Hpf, Hfail, Hpc, Hlen, !app_nil_r. cbn [app List.length].
    split; [right; split; reflexivity|].
    split.
    { split; [discriminate|]. intros (v' & c & _ & H7 & _).
      rewrite (H7 j) in Herr by lia. discriminate. }
    split; [discriminate|]. split; [now left|].
    split.
    { rewrite length_firstn. cbn [List.length prep_commands]. lia. }
    split; [lia | discriminate]. }
  destruct Hpres as (Hlen & Hfail & Hall).
  cbn [List.length prep_commands] in Hlen, Hall.
  rewrite Hlen in Hpc.
  rewrite firstn_all2 in Hpc by (cbn; lia).
  rewrite rel_run_bind, run_writeKustomization.
  cbn [runs trace].
  destruct (yaml_Marshal e _) as [content|merr] eqn:Hm; cbn [fst snd].
  2:{ rewrite run_Fatalf. cbn [fst snd trace]. eexists.
      split; [rewrite <- app_assoc; reflexivity|].
      cbn [app]. rewrite !app_comm_cons.
      rewrite fatals_app, writes_app, commands_app, failures_app.
      cbn [fatals writes commands failures].
      rewrite Hpw, Hpf, Hfail, Hpc, !app_nil_r. cbn [app List.length].
      split; [right; split; reflexivity|].
      split; [split; [discriminate|];
              intros (v' & c & _ & _ & H & _); discriminate|].
      split; [discriminate|]. split; [now left|].
      split; [intros H; cbn in H; lia|]. split; [lia | discriminate]. }
  destruct (os_WriteFile e) as [werr|] eqn:Hw.
  { rewrite run_Fatalf. cbn [fst snd trace]. eexists.
    split; [rewrite <- !app_assoc; reflexivity|].
    cbn [app]. rewrite !app_comm_cons.
    rewrite fatals_app, writes_app, commands_app, failures_app.
    cbn [fatals writes commands failures].
    rewrite Hpw, Hpf, Hfail, Hpc. cbn [app List.length].
    split; [right; split; reflexivity|].
    split; [split; [discriminate|];
            intros (v' & c & _ & _ & _ & H); discriminate|].
    split; [discriminate|].
    split; [right; exists content; repeat split; exact Hall|].
    split; [intros H; cbn in H; lia|]. split; [lia | discriminate]. }
  rewrite rel_run_bind, run_release. cbv zeta. cbn [fst snd runs trace].
  rewrite Hlen.
  destruct (run_seq_spec (run_result e) (release_commands v versionFlag)
              (2 + runs w)) as (Hrw & Hrf & Hrc & Hrres).
  set (rs := run_seq (run_result e) (2 + runs w)
               (release_commands v versionFlag)) in *.
  assert (Hrlen : List.length (failures (fst rs)) <= 1).
  { destruct (snd rs) as [err|].
    - destruct Hrres as (j & _ & _ & _ & _ & ->). cbn. lia.
    - destruct Hrres as (_ & -> & _). cbn. lia. }
  destruct (snd rs) as [err|].
  - destruct Hrres as (j & Hj & Hrl & Hrall & Herr & Hrfail).
    cbn [List.length release_commands] in Hj.
    rewrite run_Fatalf. cbn [fst snd trace]. eexists.
    split; [rewrite <- !app_assoc; reflexivity|].
    cbn [app]. rewrite !app_comm_cons.
    rewrite !fatals_app, !writes_app, !commands_app, !failures_app.
    cbn [fatals writes commands failures].
    rewrite Hpw, Hpf, Hfail, Hpc, Hrw, Hrf. cbn [app List.length].
    split; [right; split; reflexivity|].
    split.
    { split; [discriminate|]. intros (v' & c & _ & H7 & _).
      enough (Some err = None) by discriminate.
      rewrite <- Herr, <- (H7 (2 + j)) by lia. f_equal. lia. }
    split; [discriminate|].
    split; [right; exists content; repeat split; exact Hall|].
    split; [intros _; split; [reflexivity | discriminate]|].
    split; [now rewrite app_nil_r | discriminate].
  - destruct Hrres as (Hrl & Hrfail & Hrall).
    cbn [List.length release_commands] in Hrl, Hrall.
    rewrite Hrl in Hrc. rewrite firstn_all2 in Hrc by (cbn; lia).
    rewrite rel_run_ret. cbn [fst snd trace]. eexists.
    split; [rewrite <- !app_assoc; reflexivity|].
    cbn [app]. rewrite !app_comm_cons.
    rewrite !fatals_app, !writes_app, !commands_app, !failures_app.
    cbn [fatals writes commands failures].
    rewrite Hpw, Hpf, Hfail, Hpc, Hrw, Hrf, Hrc, Hrfail.
    cbn [app List.length].
    split; [left; split; reflexivity|].
    split.
    { split; [|reflexivity]. intros _. exists v, content.
      repeat split; try reflexivity.
      intros i Hi. destruct (Nat.lt_ge_cases i 2) as [Hlt|Hge].
      - now apply Hall.
      - replace (runs w + i) with (2 + runs w + (i - 2)) by lia.
        apply Hrall. lia. }
    split; [discriminate|].
    split; [right; exists content; repeat split; exact Hall|].
    split; [intros _; split; [reflexivity | discriminate]|].
    split; [lia|]. intros _. exists v. split; reflexivity.
Qed.

(** The release of v1.4.2 on a repository with no release branch yet, when
    nothing fails. *)
Example release_of_v1_4_2 :
  commands
    (trace (snd (runState
                   (main smooth "v1.4.2" defaultImageName defaultImageRef)
                   (mkWorld 0 [])))) =
  [["checkout"; "-b"; "release-1.4"];
   ["merge"; "origin/main"; "-m"; "chore(1.4): merge changes for v1.4.2";
    "--signoff"];
   ["add"; "."];
   ["commit"; "-sm"; "chore(1.4): create release commit v1.4.2"];
   ["push"; "origin"; "release-1.4"];
   ["tag"; "v1.4.2"];
   ["push"; "--tags"]].
Proof. vm_compute. reflexivity. Qed.

End release_props.
